(** * YORM: file-backed object attributes

    A shallow embedding of the Python sources [yorm/common.py] and
    [yorm/bases/converter.py], together with a model of the synchronisation
    engine that the tests [yorm/test/test_mapper.py] exercise.

    Layout:
    - [Exceptions]: the exception classes of [common.py] and the builtin
      classes they extend, with Python's subclass test;
    - [Python]: the values the YAML loader hands back and their truth value;
    - [Yaml]: what the YAML loader may answer;
    - [Disk]: the part of the operating system that [common.py] talks to;
    - [common]: the file helpers and the loader of [common.py];
    - [converter]: the classes of [bases/converter.py] over a store of
      instances;
    - [mapper]: the synchronisation engine;
    - [samples]: the inputs of the tests;
    - [common_spec], [converter_spec], [mapper_spec]: what is proved. *)

From Stdlib Require Import ZArith String Ascii.
From stdpp Require Import base option list gmap strings fin_maps.

Set Default Proof Using "Type".
Set Warnings "-register-all".

(** ** Exceptions *)

Module Exceptions.

(** The classes [common.py] declares, and the builtin ones they derive from
    or that the calls into the operating system raise. *)
Inductive exc_class : Type :=
  | Exception
  | OSError            (* IOError is an alias of OSError in Python 3 *)
  | FileNotFoundError
  | PermissionError
  | IsADirectoryError
  | ValueError
  | LookupError
  | KeyError
  | AttributeError
  | NotImplementedError
  | YAMLError          (* yaml.error.YAMLError *)
  | YORMException
  | FileError
  | ContentError
  | ConversionError.

#[global] Instance exc_class_eq_dec : EqDecision exc_class.
Proof. solve_decision. Defined.

(** The bases in each [class] statement, in declaration order. *)
Definition bases (c : exc_class) : list exc_class :=
  match c with
  | Exception => []
  | OSError => [Exception]
  | FileNotFoundError => [OSError]
  | PermissionError => [OSError]
  | IsADirectoryError => [OSError]
  | ValueError => [Exception]
  | LookupError => [Exception]
  | KeyError => [LookupError]
  | AttributeError => [Exception]
  | NotImplementedError => [Exception]
  | YAMLError => [Exception]
  | YORMException => [Exception]
  | FileError => [YORMException; FileNotFoundError]
  | ContentError => [YORMException; YAMLError; ValueError]
  | ConversionError => [YORMException; ValueError]
  end.

Fixpoint issubclass_upto (depth : nat) (c d : exc_class) : bool :=
  bool_decide (c = d) ||
  match depth with
  | O => false
  | S depth' => existsb (fun b => issubclass_upto depth' b d) (bases c)
  end.

(** No chain of bases is longer than three steps
    ([FileError], [FileNotFoundError], [OSError], [Exception]). *)
Definition issubclass (c d : exc_class) : bool := issubclass_upto 3 c d.

(** A raised exception: its class and the message it was built with. *)
Record exn : Type := mk_exn { exn_class : exc_class; exn_msg : string }.

Definition isinstance (e : exn) (d : exc_class) : bool :=
  issubclass (exn_class e) d.

(** The outcome of a call that may raise. *)
Inductive result (E A : Type) : Type :=
  | Return (a : A)
  | Raise (e : E).
#[global] Arguments Return {E A} a.
#[global] Arguments Raise {E A} e.

(** Sequencing: an exception ends the computation. *)
#[global] Instance result_bind {E} : MBind (result E) := λ A B k m,
  match m with
  | Return a => k a
  | Raise e => Raise e
  end.
#[global] Instance result_ret {E} : MRet (result E) := λ A a, Return a.

Definition raises {E A} (m : result E A) : Prop :=
  match m with Return _ => False | Raise _ => True end.

End Exceptions.

Export Exceptions.

(** ** Python values *)

Module Python.

(** What [yaml.load] can return.  [POther] stands for every object the rest
    of the code only looks at through [bool(...)] and [isinstance(..., dict)]:
    floats, timestamps, sets and the like, with their truth value. Mapping
    keys are attribute names, hence strings. *)
Inductive pyval : Type :=
  | PNone
  | PBool (b : bool)
  | PInt (n : Z)
  | PStr (s : string)
  | PList (xs : list pyval)
  | PDict (items : list (string * pyval))
  | POther (truth : bool) (repr : string).

(** [bool(v)]. *)
Definition truthy (v : pyval) : bool :=
  match v with
  | PNone => false
  | PBool b => b
  | PInt n => negb (n =? 0)%Z
  | PStr s => negb (String.eqb s "")
  | PList xs => match xs with [] => false | _ => true end
  | PDict items => match items with [] => false | _ => true end
  | POther t _ => t
  end.

(** [a or b]. *)
Definition py_or (a b : pyval) : pyval := if truthy a then a else b.

(** [isinstance(v, dict)]. *)
Definition is_dict (v : pyval) : bool :=
  match v with PDict _ => true | _ => false end.

(** [d.get(k)] on the items of a mapping. *)
Fixpoint dict_get (k : string) (items : list (string * pyval)) : option pyval :=
  match items with
  | [] => None
  | (k', v) :: rest => if String.eqb k k' then Some v else dict_get k rest
  end.

(** The line feed of the message formats. *)
Definition nl : string := String (ascii_of_nat 10) EmptyString.

End Python.

Export Python.

(** ** The YAML library *)

Module Yaml.

(** [yaml.load(text)] is PyYAML's: it returns a value, or raises a
    [yaml.error.YAMLError], of which only [str(exc)] is used, or raises
    some other exception, as its constructors do on a tagged scalar they
    cannot convert (a [ValueError] for [!!int abc], a [KeyError] for
    [!!bool abc]). The loader is a parameter of everything below. *)
Inductive yaml_outcome : Type :=
  | YamlValue (v : pyval)
  | YamlRaises (exc : string)
  | YamlFails (e : exn).

Definition loader : Type := string -> yaml_outcome.

End Yaml.

Export Yaml.

(** ** The file system *)

Module Disk.

(** A path names a regular file, with its text and whether the process may
    read it, or a directory, which [shutil.rmtree] may fail to remove. A
    file holds the text that its bytes decode to.

    What the disk does not carry: the permission to write a file or to
    change a directory, and the link from a file to its parent directory.
    So [open_write] and [os_remove] return where the operating system may
    still refuse (a missing parent, the empty path, a read-only directory),
    and a failing [rmtree] is taken to have removed nothing. Whatever is
    proved about a call that writes or removes is therefore stated for a
    call that returned, or from a state in which the file is known to be
    there. *)
Inductive node : Type :=
  | File (text : string) (readable : bool)
  | Dir (locked : bool).

Abbreviation filesystem := (gmap string node).

(** [os.path.exists], [os.path.isdir], [os.path.isfile]. *)
Definition path_exists (fs : filesystem) (path : string) : bool :=
  match fs !! path with Some _ => true | None => false end.

Definition isdir (fs : filesystem) (path : string) : bool :=
  match fs !! path with Some (Dir _) => true | _ => false end.

Definition isfile (fs : filesystem) (path : string) : bool :=
  match fs !! path with Some (File _ _) => true | _ => false end.

(** The file is missing, or it is there and the process may not read it. *)
Definition unreadable (fs : filesystem) (path : string) : bool :=
  match fs !! path with
  | None => true
  | Some (File _ readable) => negb readable
  | Some (Dir _) => false
  end.

(** Reading in text mode translates the line ends: a carriage return, alone
    or before a line feed, is read as one line feed. *)
Definition CR : ascii := ascii_of_nat 13.
Definition LF : ascii := ascii_of_nat 10.

Fixpoint universal_newlines (text : string) : string :=
  match text with
  | EmptyString => EmptyString
  | String c rest =>
      if Ascii.eqb c CR then
        String LF
          match rest with
          | String c' rest' =>
              if Ascii.eqb c' LF then universal_newlines rest'
              else universal_newlines rest
          | EmptyString => EmptyString
          end
      else String c (universal_newlines rest)
  end.

(** [open(path, 'r')] followed by [stream.read()]. *)
Definition open_read (fs : filesystem) (path : string) : result exn string :=
  match fs !! path with
  | None => Raise (mk_exn FileNotFoundError path)
  | Some (Dir _) => Raise (mk_exn IsADirectoryError path)
  | Some (File text readable) =>
      if readable then Return (universal_newlines text)
      else Raise (mk_exn PermissionError path)
  end.

(** [open(path, 'wb')] followed by [stream.write(data)]: the file is created
    or truncated; a directory cannot be opened. *)
Definition open_write (fs : filesystem) (path text : string)
  : result exn filesystem :=
  match fs !! path with
  | Some (Dir _) => Raise (mk_exn IsADirectoryError path)
  | Some (File _ readable) => Return (<[path := File text readable]> fs)
  | None => Return (<[path := File text true]> fs)
  end.

(** [os.remove(path)] on a regular file. *)
Definition os_remove (fs : filesystem) (path : string) : filesystem :=
  delete path fs.

(** [path] lies below the directory [dir]. *)
Definition below (dir path : string) : bool :=
  String.prefix (dir +:+ "/") path.

Definition outside (dir : string) (entry : string * node) : Prop :=
  (String.eqb entry.1 dir || below dir entry.1) = false.

#[global] Instance outside_dec dir entry : Decision (outside dir entry).
Proof. unfold outside. apply _. Defined.

(** [shutil.rmtree(path)]: the directory goes with everything below it, or
    the call raises an [IOError] and removes nothing. *)
Definition rmtree (fs : filesystem) (path : string) : result exn filesystem :=
  match fs !! path with
  | Some (Dir true) => Raise (mk_exn OSError path)
  | _ => Return (filter (outside path) fs)
  end.

(** [os.path.dirname] of [posixpath]: the head is the path up to and with
    its last slash, [p[:p.rfind('/') + 1]]; unless it is empty or made of
    slashes only, the slashes at its end are stripped. The characters are
    handled last first. *)
Definition is_slash (c : ascii) : bool := Ascii.eqb c "/".

Fixpoint from_last_slash (reversed : list ascii) : list ascii :=
  match reversed with
  | [] => []
  | c :: rest => if is_slash c then reversed else from_last_slash rest
  end.

Fixpoint rstrip_slashes (reversed : list ascii) : list ascii :=
  match reversed with
  | [] => []
  | c :: rest => if is_slash c then rstrip_slashes rest else reversed
  end.

Definition dirname (path : string) : string :=
  let head := from_last_slash (rev (list_ascii_of_string path)) in
  let stripped := rstrip_slashes head in
  string_of_list_ascii
    (rev (match stripped with [] => head | _ => stripped end)).

End Disk.

Export Disk.

(** ** [yorm/common.py] *)

Module common.

(** [create_dirname(path)]. [os.makedirs] is the operating system's and is
    passed in: it returns the disk with the directory made, or raises. *)
Definition create_dirname
    (makedirs : filesystem -> string -> result exn filesystem)
    (path : string) (fs : filesystem) : result exn filesystem :=
  let dirpath := dirname path in
  if negb (String.eqb dirpath "") && negb (isdir fs dirpath)
  then makedirs fs dirpath
  else mret fs.

(** [read_text(path, encoding='utf-8')]: nothing is caught, so what [open]
    raises is what the caller sees. *)
Definition read_text (fs : filesystem) (path : string) : result exn string :=
  text ← open_read fs path;
  mret text.

(** [load_yaml(text, path)]. *)
Definition load_yaml (yaml_load : loader) (text path : string)
  : result exn pyval :=
  match yaml_load text with
  | YamlRaises exc =>
      Raise (mk_exn ContentError
               ("invalid contents: " +:+ path +:+ ":" +:+ nl +:+ exc))
  | YamlFails e =>
      (* [except yaml.error.YAMLError]: any other exception goes through *)
      if isinstance e YAMLError
      then Raise (mk_exn ContentError
                    ("invalid contents: " +:+ path +:+ ":" +:+ nl +:+ exn_msg e))
      else Raise e
  | YamlValue loaded =>
      let data := py_or loaded (PDict []) in
      if negb (is_dict data)
      then Raise (mk_exn ContentError ("invalid contents: " +:+ path))
      else Return data
  end.

(** [write_text(text, path, encoding='utf-8')] returns the path. *)
Definition write_text (text path : string) (fs : filesystem)
  : result exn (string * filesystem) :=
  fs' ← open_write fs path text;
  mret (path, fs').

(** [touch(path)]. *)
Definition touch (path : string) (fs : filesystem) : result exn filesystem :=
  if negb (path_exists fs path)
  then written ← write_text "" path fs; mret written.2
  else mret fs.

(** [delete(path)]: the [IOError] of [shutil.rmtree] is logged and dropped. *)
Definition delete (path : string) (fs : filesystem) : result exn filesystem :=
  if isdir fs path then
    match rmtree fs path with
    | Return fs' => Return fs'
    | Raise e => if isinstance e OSError then Return fs else Raise e
    end
  else if isfile fs path then Return (os_remove fs path)
  else Return fs.

End common.

(** ** [yorm/bases/converter.py] *)

Module converter.

(** Containers are mutable objects: a call may allocate an instance and
    change the ones it can reach, so the methods run over a store of
    instances and return references into it. What an instance holds (the
    elements of a list, the entries of a mapping, the attributes of an
    object) is left to the concrete class. *)
Section Store.

Context {payload : Type}.

Record instance : Type := mk_instance {
  class_of : string;
  payload_of : payload
}.

Abbreviation store := (gmap nat instance).

(** A method call: the store it leaves, and a value or an exception. *)
Definition call (A : Type) : Type := store -> result exn A * store.

Definition call_ret {A} (a : A) : call A := fun h => (Return a, h).

Definition call_bind {A B} (m : call A) (k : A -> call B) : call B :=
  fun h =>
    match m h with
    | (Return a, h') => k a h'
    | (Raise e, h') => (Raise e, h')
    end.

(** A concrete subclass of [Container]: its name, what [cls.__new__(cls)]
    builds, and the methods that Python resolves on it. [update_value] and
    [to_data] are abstract in the base classes, so every concrete class
    brings its own; [create_default] may be overridden. *)
Record container_class : Type := mk_class {
  cls_name : string;
  cls_blank : payload;
  create_default : call nat;
  update_value : nat -> pyval -> bool -> call unit;
  to_data : nat -> call pyval
}.

(** [Container.create_default]: [return cls.__new__(cls)]. *)
Definition Container_create_default (name : string) (blank : payload) : call nat :=
  fun h =>
    let value := fresh (dom h) in
    (Return value, <[value := mk_instance name blank]> h).

(** A class that keeps the [create_default] it inherits. *)
Definition inherits_create_default (cls : container_class) : Prop :=
  create_default cls = Container_create_default (cls_name cls) (cls_blank cls).

(** [Container.to_value]. *)
Definition to_value (cls : container_class) (data : pyval) : call nat :=
  call_bind (create_default cls) (fun value =>
  call_bind (update_value cls value data true) (fun _ =>
  call_ret value)).

(** [Container.format_data]. *)
Definition format_data (cls : container_class) (self : nat) : call pyval :=
  to_data cls self.

End Store.

#[global] Arguments instance : clear implicits.
#[global] Arguments container_class : clear implicits.

(** The [update_value] of a class removes no instance from the store. *)
Definition keeps_instances {payload : Type} (cls : container_class payload)
  : Prop :=
  ∀ value data (h h' : gmap nat (instance payload)),
    update_value cls value data true h = (Return (), h') →
    ∀ r, is_Some (h !! r) → is_Some (h' !! r).

End converter.

(** ** The synchronisation engine *)

Module mapper.

(** Modelled from the spec: the error raised by a fetch after a delete
    (section 7, [FileDeletedError]); [yorm/exceptions.py] is missing. Every
    other failure is an exception of [common.py] or of Python, passed on
    unchanged. *)
Inductive error : Type :=
  | FileDeletedError
  | Propagated (e : exn).

Definition propagate {A} (m : result exn A) : result error A :=
  match m with
  | Return a => Return a
  | Raise e => Raise (Propagated e)
  end.

(** Modelled from the spec: a converter as section 3 gives it, a stateless
    descriptor with the capability set [create_default], [to_value],
    [to_data]; the concrete converters ([yorm/types]) are missing. Only
    [to_value] can fail, with a [ConversionError]. *)
Record Converter : Type := mk_converter {
  create_default : pyval;
  to_value : pyval -> result exn pyval;
  to_data : pyval -> pyval
}.

Abbreviation schema := (list (string * Converter)).
Abbreviation attributes := (gmap string pyval).

(** Modelled from the spec: the state of a Mapper (sections 3 and 4.3);
    [yorm/mapper.py] is missing. [cache] is the optional in-memory text,
    which stands for the file in fake mode. *)
Record Mapper : Type := mk_mapper {
  path : string;
  attrs : schema;
  strict : bool;
  modified : bool;
  deleted : bool;
  cache : option string
}.

(** A Mapper with what it works on: the fake-mode flag of the process, the
    disk, and the attributes of the object it is bound to. *)
Record system : Type := mk_system {
  fake : bool;
  disk : filesystem;
  this : Mapper;
  obj : attributes
}.

Definition with_mapper (s : system) (m : Mapper) : system :=
  mk_system (fake s) (disk s) m (obj s).

Definition with_disk (s : system) (fs : filesystem) : system :=
  mk_system (fake s) fs (this s) (obj s).

Definition with_obj (s : system) (o : attributes) : system :=
  mk_system (fake s) (disk s) (this s) o.

Definition set_flags (m : Mapper) (is_modified is_deleted : bool) : Mapper :=
  mk_mapper (path m) (attrs m) (strict m) is_modified is_deleted (cache m).

Definition set_modified (m : Mapper) (is_modified : bool) : Mapper :=
  set_flags m is_modified (deleted m).

Definition set_cache (m : Mapper) (text : option string) : Mapper :=
  mk_mapper (path m) (attrs m) (strict m) (modified m) (deleted m) text.

Definition set_attrs (m : Mapper) (declared : schema) : Mapper :=
  mk_mapper (path m) declared (strict m) (modified m) (deleted m) (cache m).

(** Modelled from the spec: construction. [modified] starts true and
    [deleted] false (section 3). *)
Definition new_mapper (file : string) (declared : schema) (is_strict : bool)
  : Mapper :=
  mk_mapper file declared is_strict true false None.

Definition bind_object (is_fake : bool) (fs : filesystem) (o : attributes)
    (file : string) (declared : schema) (is_strict : bool) : system :=
  mk_system is_fake fs (new_mapper file declared is_strict) o.

(** Modelled from the spec: whether the file exists, on disk or, in fake
    mode, in memory only. *)
Definition file_exists (s : system) : bool :=
  if fake s then bool_decide (is_Some (cache (this s)))
  else path_exists (disk s) (path (this s)).

(** Modelled from the spec: [create()] (section 4.3). If the file does not
    exist an empty one is made, by [common.touch] or in memory; the mapper
    is marked not deleted and modified. The two flags are set whether or not
    the file had to be made: section 3 has [modified] true after every
    [create()], and a second call still changes nothing. *)
Definition create (s : system) : result error system :=
  made ←
    (if file_exists s then Return s
     else if fake s then Return (with_mapper s (set_cache (this s) (Some "")))
     else fs ← propagate (common.touch (path (this s)) (disk s));
          Return (with_disk s fs));
  Return (with_mapper made (set_flags (this made) true false)).

(** Modelled from the spec: [delete()] (section 4.3). The file is removed,
    by [common.delete] or in memory; the mapper is marked deleted and
    modified. *)
Definition delete (s : system) : result error system :=
  gone ←
    (if fake s then Return (with_mapper s (set_cache (this s) None))
     else fs ← propagate (common.delete (path (this s)) (disk s));
          Return (with_disk s fs));
  Return (with_mapper gone (set_flags (this gone) true true)).

(** Modelled from the spec: the raw read behind the [text] property. *)
Definition read (s : system) : result error string :=
  if fake s then Return (default "" (cache (this s)))
  else propagate (common.read_text (disk s) (path (this s))).

(** Modelled from the spec: the setter of the [text] property. The raw text
    goes to the file, by [common.write_text] or in memory, and the mapper is
    marked modified so that the next fetch parses it. *)
Definition set_text (s : system) (text : string) : result error system :=
  written ←
    (if fake s then Return (with_mapper s (set_cache (this s) (Some text)))
     else out ← propagate (common.write_text text (path (this s)) (disk s));
          Return (with_disk s out.2));
  Return (with_mapper written (set_modified (this written) true)).

(** [getattr(obj, name)] and [setattr(obj, name, value)] on a plain object. *)
Definition getattr (o : attributes) (name : string) : result exn pyval :=
  match o !! name with
  | Some value => Return value
  | None => Raise (mk_exn AttributeError name)
  end.

Definition setattr (o : attributes) (name : string) (value : pyval)
  : attributes :=
  <[name := value]> o.

Definition declares (declared : schema) (name : string) : bool :=
  existsb (fun entry => String.eqb name entry.1) declared.

(** Modelled from the spec: the first loop of [fetch()]. Every attribute of
    the schema is assigned: converted from the tree when its key is there,
    the converter's default when it is not. *)
Fixpoint assign_declared (declared : schema) (tree : list (string * pyval))
    (o : attributes) : result exn attributes :=
  match declared with
  | [] => Return o
  | (name, conv) :: rest =>
      value ← match dict_get name tree with
              | Some data => to_value conv data
              | None => Return (create_default conv)
              end;
      assign_declared rest tree (setattr o name value)
  end.

Section Engine.

(** The parser of the text (PyYAML in the reference), and the inference of
    a converter from the shape of a data node, which the spec names without
    defining it. *)
Variable yaml_load : loader.
Variable infer : pyval -> result exn Converter.

(** Modelled from the spec: the second loop of [fetch()], run when [strict]
    is false. A key of the tree that the schema does not know gets an
    inferred converter, which is registered, and the object gains the
    attribute. *)
Fixpoint assign_inferred (tree : list (string * pyval)) (declared : schema)
    (o : attributes) : result exn (schema * attributes) :=
  match tree with
  | [] => Return (declared, o)
  | (key, data) :: rest =>
      if declares declared key then assign_inferred rest declared o
      else
        conv ← infer data;
        value ← to_value conv data;
        assign_inferred rest (declared ++ [(key, conv)]) (setattr o key value)
  end.

Definition items_of (data : pyval) : list (string * pyval) :=
  match data with PDict items => items | _ => [] end.

(** Modelled from the spec: [fetch()] (section 4.3). *)
Definition fetch (s : system) : result error system :=
  if deleted (this s) then Raise FileDeletedError
  else
    ready ← (if file_exists s then Return s else create s);
    text ← read ready;
    data ← propagate (common.load_yaml yaml_load text (path (this ready)));
    let tree := items_of data in
    assigned ← propagate (assign_declared (attrs (this ready)) tree (obj ready));
    synced ←
      (if strict (this ready) then Return (attrs (this ready), assigned)
       else propagate (assign_inferred tree (attrs (this ready)) assigned));
    Return (with_obj
              (with_mapper ready
                 (set_modified (set_attrs (this ready) synced.1) false))
              synced.2).

End Engine.

End mapper.

(** ** Sample inputs *)

Module samples.

(** PyYAML on the texts that the tests write; a text outside the table is
    refused. *)
Definition pyyaml : loader := fun text =>
  if String.eqb text "" then YamlValue PNone
  else if String.eqb text "var4: foo" then YamlValue (PDict [("var4", PStr "foo")])
  else if String.eqb text ("var2: 42" +:+ nl) then YamlValue (PDict [("var2", PInt 42)])
  else if String.eqb text ("not a dictionary" +:+ nl) then YamlValue (PStr "not a dictionary")
  else if String.eqb text "0" then YamlValue (PInt 0)
  else if String.eqb text ("invalid: -" +:+ nl)
       then YamlRaises "sequence entries are not allowed here"
  else if String.eqb text "!!int abc"
       then YamlFails (mk_exn ValueError "invalid literal for int()")
  else if String.eqb text "!!bool abc"
       then YamlFails (mk_exn KeyError "abc")
  else YamlRaises "not in the table".

(** The disk of the fixtures once the directories of the path are made. *)
Definition fixture_disk : gmap string node :=
  {[ "real" := Dir false; "real/path" := Dir false;
     "real/path/to" := Dir false ]}.

(** A disk with two directories and a file in one of them. *)
Definition sample_tree : gmap string node :=
  {[ "real" := Dir false; "real/file" := File "" true; "fake" := Dir false ]}.

(** The paths of the fixtures of [test_mapper.py]. *)
Definition real_path : string := "real/path/to/file".
Definition fake_path : string := "fake/path/to/file".

(** Modelled from the spec: the integer converter that the fixtures declare
    ([yorm/types] is missing). The default is zero, an integer node converts
    to itself and any other node is a [ConversionError]. *)
Definition Integer : mapper.Converter :=
  mapper.mk_converter
    (PInt 0)
    (fun data =>
       match data with
       | PInt n => Return (PInt n)
       | _ => Raise (mk_exn ConversionError "not an integer")
       end)
    (fun value => value).

(** Modelled from the spec: the string converter, with the empty string as
    default; an integer node converts to its decimal text in the tests, which
    is left out here. *)
Definition String' : mapper.Converter :=
  mapper.mk_converter
    (PStr "")
    (fun data =>
       match data with
       | PStr s => Return (PStr s)
       | _ => Raise (mk_exn ConversionError "not a string")
       end)
    (fun value => value).

(** Modelled from the spec: inference by shape, a scalar to the matching
    scalar converter, an unrecognised shape to a [ConversionError]. *)
Definition infer (data : pyval) : result exn mapper.Converter :=
  match data with
  | PInt _ => Return Integer
  | PStr _ => Return String'
  | _ => Raise (mk_exn ConversionError "unknown shape")
  end.

(** [os.makedirs] for the examples: the directory is made after the ones
    above it; a name that is taken, or that lies below a regular file, is
    an [OSError]. *)
Fixpoint makedirs_upto (depth : nat) (fs : gmap string node) (name : string)
  : result exn (gmap string node) :=
  match depth with
  | O => Raise (mk_exn OSError name)
  | S depth' =>
      if path_exists fs name then Raise (mk_exn OSError name)
      else
        let head := dirname name in
        above ← (if negb (String.eqb head "") && negb (path_exists fs head)
                 then makedirs_upto depth' fs head
                 else Return fs);
        if String.eqb head "" || isdir above head
        then Return (<[name := Dir false]> above)
        else Raise (mk_exn OSError head)
  end.

Definition makedirs (fs : gmap string node) (name : string)
  : result exn (gmap string node) :=
  makedirs_upto (String.length name) fs name.

(** A container class for the examples: an instance holds one data node,
    [update_value] replaces it and [to_data] reads it back. *)
Definition Box_update_value (self : nat) (data : pyval) (auto_attr : bool)
  : converter.call (payload := pyval) unit :=
  fun h =>
    match h !! self with
    | Some inst =>
        (Return (), <[self := converter.mk_instance (converter.class_of inst) data]> h)
    | None => (Raise (mk_exn AttributeError "update_value"), h)
    end.

Definition Box_to_data (value : nat) : converter.call (payload := pyval) pyval :=
  fun h =>
    match h !! value with
    | Some inst => (Return (converter.payload_of inst), h)
    | None => (Raise (mk_exn AttributeError "to_data"), h)
    end.

Definition Box : converter.container_class pyval :=
  converter.mk_class "Box" PNone
    (converter.Container_create_default "Box" PNone)
    Box_update_value Box_to_data.

(** The schema of the fixtures: [{'var2': Integer, 'var3': Integer}]. *)
Definition fixture_attrs : list (string * mapper.Converter) :=
  [("var2", Integer); ("var3", Integer)].

(** The object of the fixtures: [MyObject], with [var1 = 1]. *)
Definition MyObject : gmap string pyval := {[ "var1" := PInt 1 ]}.

(** The mapper of the fixtures, in fake mode or on a disk that has the
    directories of the path and not yet the file. *)
Definition fresh_mapper (is_fake : bool) : mapper.system :=
  mapper.bind_object is_fake (if is_fake then ∅ else fixture_disk) MyObject
    (if is_fake then fake_path else real_path) fixture_attrs true.

(** The same mapper with [strict] set by hand, as one test does. *)
Definition fresh_mapper_with (is_fake is_strict : bool) : mapper.system :=
  mapper.bind_object is_fake (if is_fake then ∅ else fixture_disk) MyObject
    (if is_fake then fake_path else real_path) fixture_attrs is_strict.

End samples.

(** * Properties of [common.py] *)

Module common_spec.

Import samples.

Lemma issubclass_refl c : issubclass c c = true.
Proof. by destruct c. Qed.

(** Three steps reach every base: a deeper search finds nothing more. *)
Lemma issubclass_depth_enough c d :
  issubclass_upto 4 c d = issubclass c d.
Proof. by destruct c, d. Qed.

Lemma issubclass_Exception c : issubclass c Exception = true.
Proof. by destruct c. Qed.

(** X4: the library's exceptions are what the class statements say. Each
    is a [YORMException]; [FileError] is also caught as a
    [FileNotFoundError], [ContentError] as a [YAMLError] and as a
    [ValueError], [ConversionError] as a [ValueError]; and no builtin error
    is a [YORMException]. *)
Theorem yorm_exceptions_hierarchy :
  (∀ c, c ∈ [FileError; ContentError; ConversionError] →
        issubclass c YORMException = true) ∧
  issubclass FileError FileNotFoundError = true ∧
  issubclass FileError OSError = true ∧
  issubclass ContentError YAMLError = true ∧
  issubclass ContentError ValueError = true ∧
  issubclass ConversionError ValueError = true ∧
  (∀ c, c ∈ [OSError; FileNotFoundError; PermissionError; IsADirectoryError;
             ValueError; AttributeError; NotImplementedError; YAMLError] →
        issubclass c YORMException = false).
Proof.
  split; [| repeat split; try reflexivity].
  - intros c Hc.
    repeat (apply elem_of_cons in Hc as [-> | Hc]; [reflexivity |]).
    by apply elem_of_nil in Hc.
  - intros c Hc.
    repeat (apply elem_of_cons in Hc as [-> | Hc]; [reflexivity |]).
    by apply elem_of_nil in Hc.
Qed.

(** What [open] raises for a missing or unreadable file is an [OSError]. *)
Lemma open_read_unreadable fs path :
  unreadable fs path = true →
  ∃ c, open_read fs path = Raise (mk_exn c path) ∧
       (c = FileNotFoundError ∨ c = PermissionError).
Proof.
  unfold unreadable, open_read.
  destruct (fs !! path) as [[text [] | locked] |]; simpl; intros H;
    try discriminate.
  - exists PermissionError. auto.
  - exists FileNotFoundError. auto.
Qed.

Lemma read_text_open_read fs path :
  common.read_text fs path = open_read fs path.
Proof. unfold common.read_text. by destruct (open_read fs path). Qed.

(** C5 (as amended): for a missing or unreadable file [read_text] fails with
    the error that [open] raises, a [FileNotFoundError] or a
    [PermissionError]; this is an [OSError] and neither a [FileError] nor any
    other [YORMException], since [read_text] catches and wraps nothing. *)
Theorem read_text_passes_on_the_os_error fs path :
  unreadable fs path = true →
  ∃ e, common.read_text fs path = Raise e ∧
       isinstance e OSError = true ∧
       isinstance e FileError = false ∧
       isinstance e YORMException = false.
Proof.
  intros Hbad. rewrite read_text_open_read.
  destruct (open_read_unreadable fs path Hbad) as (c & -> & [-> | ->]);
    eexists; (split; [reflexivity |]); repeat split; reflexivity.
Qed.

Lemma read_text_passes_on_the_os_error_witness :
  unreadable (∅ : filesystem) real_path = true ∧
  ∃ e, common.read_text ∅ real_path = Raise e ∧
       isinstance e OSError = true ∧
       isinstance e FileError = false ∧
       isinstance e YORMException = false.
Proof.
  split; [reflexivity |].
  apply (read_text_passes_on_the_os_error ∅ real_path). reflexivity.
Defined.

(** C5 (as stated) fails: reading a missing file raises the builtin
    [FileNotFoundError], which is not an instance of [FileError]. *)
Lemma read_text_missing_is_not_FileError :
  unreadable (∅ : filesystem) real_path = true ∧
  common.read_text ∅ real_path = Raise (mk_exn FileNotFoundError real_path) ∧
  isinstance (mk_exn FileNotFoundError real_path) FileError = false ∧
  isinstance (mk_exn FileNotFoundError real_path) YORMException = false.
Proof. repeat split; reflexivity. Qed.

(** X8: whatever [read_text] raises, it is no library exception. *)
Theorem read_text_never_raises_YORMException fs path e :
  common.read_text fs path = Raise e → isinstance e YORMException = false.
Proof.
  rewrite read_text_open_read. unfold open_read.
  destruct (fs !! path) as [[text [] | locked] |]; intros [= <-]; reflexivity.
Qed.

(** ** [load_yaml] *)

Lemma py_or_truthy a b : truthy a = true → py_or a b = a.
Proof. unfold py_or. by intros ->. Qed.

Lemma py_or_falsy a b : truthy a = false → py_or a b = b.
Proof. unfold py_or. by intros ->. Qed.

(** What [load_yaml] does with each outcome of the loader. *)
Lemma load_yaml_unparseable yaml_load text path exc :
  yaml_load text = YamlRaises exc →
  common.load_yaml yaml_load text path =
    Raise (mk_exn ContentError
             ("invalid contents: " +:+ path +:+ ":" +:+ nl +:+ exc)).
Proof. unfold common.load_yaml. by intros ->. Qed.

Lemma load_yaml_falsy yaml_load text path v :
  yaml_load text = YamlValue v → truthy v = false →
  common.load_yaml yaml_load text path = Return (PDict []).
Proof.
  unfold common.load_yaml. intros -> Hv. by rewrite (py_or_falsy _ _ Hv).
Qed.

Lemma load_yaml_truthy yaml_load text path v :
  yaml_load text = YamlValue v → truthy v = true →
  common.load_yaml yaml_load text path =
    if is_dict v then Return v
    else Raise (mk_exn ContentError ("invalid contents: " +:+ path)).
Proof.
  unfold common.load_yaml. intros -> Hv. rewrite (py_or_truthy _ _ Hv).
  by destruct (is_dict v).
Qed.

Lemma is_dict_items v : is_dict v = true → ∃ items, v = PDict items.
Proof. destruct v; try discriminate. eauto. Qed.

(** An exception of the loader that is no [YAMLError] is not caught. *)
Lemma load_yaml_passes_on yaml_load text path e :
  yaml_load text = YamlFails e → isinstance e YAMLError = false →
  common.load_yaml yaml_load text path = Raise e.
Proof. unfold common.load_yaml. by intros -> ->. Qed.

Lemma load_yaml_wraps yaml_load text path e :
  yaml_load text = YamlFails e → isinstance e YAMLError = true →
  common.load_yaml yaml_load text path =
    Raise (mk_exn ContentError
             ("invalid contents: " +:+ path +:+ ":" +:+ nl +:+ exn_msg e)).
Proof. unfold common.load_yaml. by intros -> ->. Qed.

(** C6 (as amended): for every text, [load_yaml] returns a mapping, or
    fails with [ContentError], or lets through an exception of [yaml.load]
    that is no [YAMLError]. It raises [ContentError] when [yaml.load]
    raises a [YAMLError] and when the parsed top-level value is true in a
    boolean context and is not a mapping; a top-level null gives the empty
    mapping. *)
Theorem load_yaml_mapping_or_ContentError (yaml_load : loader) text path :
  ((∃ items, common.load_yaml yaml_load text path = Return (PDict items)) ∨
   (∃ msg, common.load_yaml yaml_load text path
           = Raise (mk_exn ContentError msg)) ∨
   (∃ e, yaml_load text = YamlFails e ∧ isinstance e YAMLError = false ∧
         common.load_yaml yaml_load text path = Raise e)) ∧
  (∀ exc, yaml_load text = YamlRaises exc →
     ∃ msg, common.load_yaml yaml_load text path
            = Raise (mk_exn ContentError msg)) ∧
  (∀ e, yaml_load text = YamlFails e → isinstance e YAMLError = true →
     ∃ msg, common.load_yaml yaml_load text path
            = Raise (mk_exn ContentError msg)) ∧
  (∀ v, yaml_load text = YamlValue v → truthy v = true → is_dict v = false →
     ∃ msg, common.load_yaml yaml_load text path
            = Raise (mk_exn ContentError msg)) ∧
  (yaml_load text = YamlValue PNone →
     common.load_yaml yaml_load text path = Return (PDict [])).
Proof.
  split; [| split; [| split; [| split]]].
  - destruct (yaml_load text) as [v | exc | e] eqn:Hload.
    + destruct (truthy v) eqn:Hv.
      * rewrite (load_yaml_truthy _ _ path _ Hload Hv).
        destruct (is_dict v) eqn:Hd; [left | right; left; eauto].
        destruct (is_dict_items v Hd) as [items ->]. eauto.
      * left. exists []. by apply (load_yaml_falsy _ _ path v).
    + right; left. rewrite (load_yaml_unparseable _ _ path _ Hload). eauto.
    + destruct (isinstance e YAMLError) eqn:Hyaml.
      * right; left. rewrite (load_yaml_wraps _ _ path _ Hload Hyaml). eauto.
      * right; right. exists e.
        by rewrite (load_yaml_passes_on _ _ path _ Hload Hyaml).
  - intros exc Hload. rewrite (load_yaml_unparseable _ _ path _ Hload). eauto.
  - intros e Hload Hyaml. rewrite (load_yaml_wraps _ _ path _ Hload Hyaml).
    eauto.
  - intros v Hload Hv Hd. rewrite (load_yaml_truthy _ _ path _ Hload Hv), Hd.
    eauto.
  - intros Hload. by apply (load_yaml_falsy _ _ path PNone).
Qed.

(** C6 (as stated) fails: the empty text parses to null, which is not a
    mapping, and [load_yaml] returns the empty mapping instead of raising
    [ContentError]. *)
Lemma load_yaml_null_does_not_raise :
  pyyaml "" = YamlValue PNone ∧
  is_dict PNone = false ∧
  common.load_yaml pyyaml "" real_path = Return (PDict []).
Proof. repeat split; reflexivity. Qed.

Lemma load_yaml_mapping_or_ContentError_witness :
  pyyaml ("not a dictionary" +:+ nl) = YamlValue (PStr "not a dictionary") ∧
  ∃ msg, common.load_yaml pyyaml ("not a dictionary" +:+ nl) real_path
         = Raise (mk_exn ContentError msg).
Proof.
  split; [reflexivity |].
  destruct (load_yaml_mapping_or_ContentError pyyaml
              ("not a dictionary" +:+ nl) real_path)
    as (_ & _ & _ & Hscalar & _).
  apply (Hscalar (PStr "not a dictionary")); reflexivity.
Defined.

(** A tagged scalar that the constructor cannot convert: the [ValueError]
    of [yaml.load] comes out of [load_yaml] as it is. *)
Example load_yaml_passes_on_a_ValueError :
  common.load_yaml pyyaml "!!int abc" real_path
    = Raise (mk_exn ValueError "invalid literal for int()").
Proof. reflexivity. Qed.

(** X5: the same happens for every top-level value that is false in a
    boolean context: zero, [False], the empty string, the empty sequence
    all load as the empty mapping. *)
Theorem load_yaml_falsy_scalars (yaml_load : loader) text path v :
  yaml_load text = YamlValue v →
  v ∈ [PInt 0; PBool false; PStr ""; PList []] →
  common.load_yaml yaml_load text path = Return (PDict []).
Proof.
  intros Hload Hv. apply (load_yaml_falsy _ _ _ v Hload).
  repeat (apply elem_of_cons in Hv as [-> | Hv]; [reflexivity |]).
  by apply elem_of_nil in Hv.
Qed.

(** ** The disk helpers *)

Lemma touch_missing path fs :
  path_exists fs path = false →
  common.touch path fs = Return (<[path := File "" true]> fs).
Proof.
  unfold common.touch, common.write_text, open_write, path_exists.
  by destruct (fs !! path) eqn:Hp.
Qed.

Lemma touch_present path fs :
  path_exists fs path = true → common.touch path fs = Return fs.
Proof. unfold common.touch. by intros ->. Qed.

(** What a [touch] that returned has done. *)
Lemma touch_returned path fs fs' :
  common.touch path fs = Return fs' →
  if path_exists fs path then fs' = fs
  else fs' = <[path := File "" true]> fs.
Proof.
  destruct (path_exists fs path) eqn:Hp.
  - rewrite (touch_present _ _ Hp). by intros [= <-].
  - rewrite (touch_missing _ _ Hp). by intros [= <-].
Qed.

Lemma read_text_file fs path text :
  fs !! path = Some (File text true) →
  common.read_text fs path = Return (universal_newlines text).
Proof. rewrite read_text_open_read. unfold open_read. by intros ->. Qed.

Lemma read_text_empty_file fs path :
  fs !! path = Some (File "" true) → common.read_text fs path = Return "".
Proof. intros Hfile. by rewrite (read_text_file _ _ "" Hfile). Qed.

(** [common.delete] on a path that is not there, and a second time. *)
Lemma filter_outside_self path (fs : filesystem) :
  filter (outside path) fs !! path = None.
Proof.
  apply map_lookup_filter_None_2.
  destruct (fs !! path) as [n |] eqn:Hp; [right | by left].
  intros x _. unfold outside. simpl. by rewrite String.eqb_refl.
Qed.

Lemma common_delete_missing path (fs : filesystem) :
  fs !! path = None → common.delete path fs = Return fs.
Proof. unfold common.delete, isdir, isfile. by intros ->. Qed.

Lemma common_delete_removes path fs fs' :
  common.delete path fs = Return fs' →
  fs !! path ≠ Some (Dir true) → path_exists fs' path = false.
Proof.
  unfold common.delete, rmtree, isdir, isfile, path_exists.
  destruct (fs !! path) as [[text readable | []] |] eqn:Hp; simpl;
    intros [= <-] Hdir.
  - unfold os_remove. by rewrite lookup_delete_eq.
  - done.
  - by rewrite filter_outside_self.
  - by rewrite Hp.
Qed.

(** Once the path is gone, another [delete] asks the disk for nothing. *)
Lemma common_delete_twice path fs fs' :
  common.delete path fs = Return fs' →
  fs !! path ≠ Some (Dir true) →
  common.delete path fs' = Return fs'.
Proof.
  intros Hrun Hdir. apply common_delete_missing.
  pose proof (common_delete_removes _ _ _ Hrun Hdir) as Hgone.
  unfold path_exists in Hgone. by destruct (fs' !! path).
Qed.

(** After a [touch] that returned the path exists, so another [touch]
    asks the disk for nothing. *)
Lemma common_touch_exists path fs fs' :
  common.touch path fs = Return fs' → path_exists fs' path = true.
Proof.
  intros Hrun%touch_returned. destruct (path_exists fs path) eqn:Hp.
  - by subst.
  - subst. unfold path_exists. by rewrite lookup_insert_eq.
Qed.

Lemma common_touch_twice path fs fs' :
  common.touch path fs = Return fs' → common.touch path fs' = Return fs'.
Proof. intros Hrun. by apply touch_present, (common_touch_exists path fs). Qed.

(** ** Further properties of the disk helpers *)

(** X1: [touch] leaves an entry that is already there as it is, without
    writing. When it has to write and the write returns, the path holds an
    empty file afterwards; and after any [touch] that returned the path
    exists, so that a second [touch] returns the same disk unchanged. *)
Theorem touch_ensures_the_file path fs :
  (path_exists fs path = true → common.touch path fs = Return fs) ∧
  (∀ fs', common.touch path fs = Return fs' →
     path_exists fs' path = true ∧
     common.touch path fs' = Return fs' ∧
     (path_exists fs path = false → fs' = <[path := File "" true]> fs) ∧
     ∀ other, other ≠ path → fs' !! other = fs !! other).
Proof.
  split; [apply touch_present |]. intros fs' Hrun.
  split; [by apply (common_touch_exists path fs) |].
  split; [by apply (common_touch_twice path fs) |].
  apply touch_returned in Hrun. destruct (path_exists fs path) eqn:Hp.
  - subst. by split.
  - subst. split; [done |]. intros other Hne. by rewrite lookup_insert_ne.
Qed.

Lemma touch_ensures_the_file_witness :
  ∃ fs', common.touch real_path fixture_disk = Return fs' ∧
         path_exists fs' real_path = true ∧
         common.touch real_path fs' = Return fs'.
Proof.
  destruct (touch_ensures_the_file real_path fixture_disk) as [_ Hran].
  eexists. split; [vm_compute; reflexivity |].
  split; eapply Hran; vm_compute; reflexivity.
Defined.

(** X2: [delete] returns at once, with the disk as it is, when the path
    does not exist. When it returned and [rmtree] has not failed, the path
    is gone afterwards, a regular file has been removed and nothing else,
    and a second [delete] returns the same disk unchanged. *)
Theorem delete_removes_the_file path fs :
  (path_exists fs path = false → common.delete path fs = Return fs) ∧
  (∀ fs', common.delete path fs = Return fs' →
     fs !! path ≠ Some (Dir true) →
     path_exists fs' path = false ∧
     common.delete path fs' = Return fs' ∧
     (isfile fs path = true → fs' = base.delete path fs)).
Proof.
  split.
  - unfold path_exists. intros Hp. apply common_delete_missing.
    by destruct (fs !! path).
  - intros fs' Hrun Hdir.
    split; [by apply (common_delete_removes path fs) |].
    split; [by apply (common_delete_twice path fs) |].
    unfold common.delete, isdir in Hrun. unfold isfile. intros Hfile.
    destruct (fs !! path) as [[text readable | locked] |] eqn:Hp;
      try discriminate.
    unfold isfile in Hrun. rewrite Hp in Hrun. by injection Hrun.
Qed.

Lemma delete_removes_the_file_witness :
  ∃ fs', common.delete "real/file" sample_tree = Return fs' ∧
         path_exists fs' "real/file" = false ∧
         common.delete "real/file" fs' = Return fs'.
Proof.
  destruct (delete_removes_the_file "real/file" sample_tree) as [_ Hran].
  eexists. split; [vm_compute; reflexivity |].
  split; eapply Hran; vm_compute; try reflexivity; discriminate.
Defined.

(** A text without carriage return is read as it was written. *)
Lemma universal_newlines_plain text :
  Forall (λ c, Ascii.eqb c CR = false) (list_ascii_of_string text) →
  universal_newlines text = text.
Proof.
  induction text as [| c rest IH]; [reflexivity |].
  simpl. intros [Hc Hrest]%Forall_cons. rewrite Hc. f_equal. by apply IH.
Qed.

(** X3: when [write_text] returned and the file may be read, [read_text]
    gives the text written with its line ends translated: a carriage
    return, alone or before a line feed, comes back as one line feed. A
    text without carriage return comes back as it was written. No other
    path changes. *)
Theorem write_text_then_read_text text path fs written fs' :
  common.write_text text path fs = Return (written, fs') →
  unreadable fs' path = false →
  written = path ∧
  common.read_text fs' path = Return (universal_newlines text) ∧
  (Forall (λ c, Ascii.eqb c CR = false) (list_ascii_of_string text) →
   common.read_text fs' path = Return text) ∧
  ∀ other, other ≠ path → fs' !! other = fs !! other.
Proof.
  unfold common.write_text, open_write, unreadable.
  destruct (fs !! path) as [[old readable | locked] |] eqn:Hp; simpl;
    [| discriminate |]; intros [= <- <-]; rewrite lookup_insert_eq;
    intros Hread; (split; [reflexivity |]).
  - destruct readable; [| discriminate].
    assert (Hback : common.read_text (<[path := File text true]> fs) path
                    = Return (universal_newlines text))
      by (apply read_text_file; by rewrite lookup_insert_eq).
    split; [exact Hback |]. split.
    + intros Hplain. by rewrite Hback, universal_newlines_plain.
    + intros other Hne. by rewrite lookup_insert_ne.
  - assert (Hback : common.read_text (<[path := File text true]> fs) path
                    = Return (universal_newlines text))
      by (apply read_text_file; by rewrite lookup_insert_eq).
    split; [exact Hback |]. split.
    + intros Hplain. by rewrite Hback, universal_newlines_plain.
    + intros other Hne. by rewrite lookup_insert_ne.
Qed.

Lemma write_text_then_read_text_witness :
  ∃ fs', common.write_text ("a" +:+ String CR nl +:+ "b") real_path fixture_disk
           = Return (real_path, fs') ∧
         unreadable fs' real_path = false ∧
         common.read_text fs' real_path = Return ("a" +:+ nl +:+ "b").
Proof.
  eexists. split; [vm_compute; reflexivity |].
  split; [vm_compute; reflexivity |].
  eapply (write_text_then_read_text ("a" +:+ String CR nl +:+ "b") real_path
            fixture_disk real_path); vm_compute; reflexivity.
Defined.

Lemma load_yaml_falsy_scalars_witness :
  common.load_yaml pyyaml "0" real_path = Return (PDict []).
Proof.
  apply (load_yaml_falsy_scalars pyyaml "0" real_path (PInt 0)).
  - reflexivity.
  - apply list_elem_of_here.
Defined.

(** ** The messages of [load_yaml] *)

Lemma prefix_append (a b : string) : String.prefix a (a +:+ b) = true.
Proof.
  induction a as [| c a IH]; simpl; [by destruct b |].
  by destruct (Ascii.ascii_dec c c).
Qed.

Lemma prefix_same (a : string) : String.prefix a a = true.
Proof.
  induction a as [| c a IH]; simpl; [done |].
  by destruct (Ascii.ascii_dec c c).
Qed.

Lemma prefix_append_append (a b c : string) :
  String.prefix (a +:+ b) (a +:+ b +:+ c) = true.
Proof.
  induction a as [| x a IH]; [exact (prefix_append b c) |].
  simpl. by destruct (Ascii.ascii_dec x x).
Qed.

(** What [load_yaml] raises is a [ContentError] of its own making, or the
    exception of the loader that its [except] clause does not catch. *)
Lemma load_yaml_raises (yaml_load : loader) text path e :
  common.load_yaml yaml_load text path = Raise e →
  (exn_class e = ContentError ∧
   String.prefix ("invalid contents: " +:+ path) (exn_msg e) = true) ∨
  (yaml_load text = YamlFails e ∧ isinstance e YAMLError = false).
Proof.
  unfold common.load_yaml.
  destruct (yaml_load text) as [loaded | exc | failure].
  - simpl. destruct (is_dict (py_or loaded (PDict []))); [discriminate |].
    intros [= <-]. left. split; [reflexivity |]. apply prefix_same.
  - intros [= <-]. left. split; [reflexivity |]. simpl exn_msg.
    apply (prefix_append_append "invalid contents: " path).
  - destruct (isinstance failure YAMLError) eqn:Hyaml.
    + intros [= <-]. left. split; [reflexivity |]. simpl exn_msg.
      apply (prefix_append_append "invalid contents: " path).
    + intros [= <-]. by right.
Qed.

(** X7: whatever [load_yaml] raises is either a [ContentError] whose
    message starts with [invalid contents: ] and the path of the file, or
    the very exception that [yaml.load] raised, when that is no
    [YAMLError]; and a [ContentError] is what comes out whenever
    [yaml.load] raised a [YAMLError] or returned a value that is true in a
    boolean context and is not a mapping. *)
Theorem load_yaml_error_names_the_path (yaml_load : loader) text path :
  (∀ e, common.load_yaml yaml_load text path = Raise e →
     (exn_class e = ContentError ∧
      String.prefix ("invalid contents: " +:+ path) (exn_msg e) = true) ∨
     (yaml_load text = YamlFails e ∧ isinstance e YAMLError = false)) ∧
  ((∃ exc, yaml_load text = YamlRaises exc) ∨
   (∃ v, yaml_load text = YamlValue v ∧ truthy v = true ∧ is_dict v = false) →
   ∃ e, common.load_yaml yaml_load text path = Raise e ∧
        exn_class e = ContentError ∧
        String.prefix ("invalid contents: " +:+ path) (exn_msg e) = true).
Proof.
  split; [intros e; apply load_yaml_raises |].
  intros [[exc Hload] | (v & Hload & Hv & Hd)].
  - rewrite (load_yaml_unparseable _ _ path _ Hload). eexists.
    split; [reflexivity |]. split; [reflexivity |].
    apply (prefix_append_append "invalid contents: " path).
  - rewrite (load_yaml_truthy _ _ path _ Hload Hv), Hd. eexists.
    split; [reflexivity |]. split; [reflexivity |]. apply prefix_same.
Qed.

Lemma load_yaml_error_names_the_path_witness :
  (∃ e, common.load_yaml pyyaml ("invalid: -" +:+ nl) real_path = Raise e ∧
        exn_class e = ContentError ∧
        String.prefix ("invalid contents: " +:+ real_path) (exn_msg e) = true) ∧
  pyyaml "!!int abc"
    = YamlFails (mk_exn ValueError "invalid literal for int()") ∧
  isinstance (mk_exn ValueError "invalid literal for int()") YAMLError = false.
Proof.
  destruct (load_yaml_error_names_the_path pyyaml ("invalid: -" +:+ nl)
              real_path) as [_ Hwrapped].
  destruct (load_yaml_error_names_the_path pyyaml "!!int abc" real_path)
    as [Hany _].
  split; [apply Hwrapped; left; eexists; reflexivity |].
  destruct (Hany (mk_exn ValueError "invalid literal for int()") eq_refl)
    as [[Hclass _] | [Hfails Hyaml]]; [discriminate | by split].
Defined.

Lemma read_text_never_raises_YORMException_witness :
  ∃ e, common.read_text ∅ real_path = Raise e ∧
       isinstance e YORMException = false.
Proof.
  eexists. split; [reflexivity |].
  apply (read_text_never_raises_YORMException ∅ real_path). reflexivity.
Defined.

(** ** What [load_yaml] returns *)

(** X9: a text that parses to a mapping loads as that very mapping, the
    empty one included; and whenever [load_yaml] returns, it returns either
    the mapping that the parser produced or the empty mapping in place of a
    value that is false in a boolean context. *)
Theorem load_yaml_returns_the_parsed_mapping (yaml_load : loader) text path :
  (∀ items, yaml_load text = YamlValue (PDict items) →
     common.load_yaml yaml_load text path = Return (PDict items)) ∧
  (∀ data, common.load_yaml yaml_load text path = Return data →
     ∃ loaded, yaml_load text = YamlValue loaded ∧
               ((is_dict loaded = true ∧ data = loaded) ∨
                (truthy loaded = false ∧ data = PDict []))).
Proof.
  split.
  - intros items Hload. destruct items as [| item rest].
    + by apply (load_yaml_falsy _ _ path (PDict [])).
    + by rewrite (load_yaml_truthy _ _ path _ Hload).
  - intros data. destruct (yaml_load text) as [loaded | exc | e] eqn:Hload.
    + destruct (truthy loaded) eqn:Hv.
      * rewrite (load_yaml_truthy _ _ path _ Hload Hv).
        destruct (is_dict loaded) eqn:Hd; [| discriminate].
        intros [= <-]. exists loaded. auto.
      * rewrite (load_yaml_falsy _ _ path _ Hload Hv).
        intros [= <-]. exists loaded. auto.
    + by rewrite (load_yaml_unparseable _ _ path _ Hload).
    + destruct (isinstance e YAMLError) eqn:Hyaml.
      * by rewrite (load_yaml_wraps _ _ path _ Hload Hyaml).
      * by rewrite (load_yaml_passes_on _ _ path _ Hload Hyaml).
Qed.

Lemma load_yaml_returns_the_parsed_mapping_witness :
  common.load_yaml pyyaml ("var2: 42" +:+ nl) real_path
    = Return (PDict [("var2", PInt 42)]).
Proof.
  destruct (load_yaml_returns_the_parsed_mapping pyyaml ("var2: 42" +:+ nl)
              real_path) as [Hparsed _].
  apply Hparsed. reflexivity.
Defined.

(** X16: an exception that [load_yaml] makes itself can be caught as a
    [ValueError], as a [YAMLError] and as a [YORMException], and is no
    [OSError]. The only other exceptions to leave [load_yaml] are those of
    [yaml.load] that are no [YAMLError]: they pass unchanged, whatever
    their class. *)
Theorem load_yaml_error_is_a_ValueError (yaml_load : loader) text path e :
  common.load_yaml yaml_load text path = Raise e →
  (isinstance e ValueError = true ∧
   isinstance e YAMLError = true ∧
   isinstance e YORMException = true ∧
   isinstance e OSError = false) ∨
  (yaml_load text = YamlFails e ∧ isinstance e YAMLError = false).
Proof.
  intros [[Hclass _] | Hpassed]%load_yaml_raises; [left | by right].
  unfold isinstance. rewrite Hclass. by repeat split.
Qed.

Lemma load_yaml_error_is_a_ValueError_witness :
  (∃ e, common.load_yaml pyyaml ("not a dictionary" +:+ nl) real_path = Raise e ∧
        isinstance e ValueError = true) ∧
  (∃ e, common.load_yaml pyyaml "!!bool abc" real_path = Raise e ∧
        pyyaml "!!bool abc" = YamlFails e ∧
        isinstance e ValueError = false).
Proof.
  split.
  - eexists. split; [reflexivity |].
    destruct (load_yaml_error_is_a_ValueError pyyaml
                ("not a dictionary" +:+ nl) real_path _ eq_refl)
      as [(Hvalue & _) | [Hfails _]]; [exact Hvalue | discriminate].
  - eexists. split; [reflexivity |].
    destruct (load_yaml_error_is_a_ValueError pyyaml "!!bool abc" real_path
                _ eq_refl)
      as [(_ & Hyaml & _) | [Hfails _]]; [discriminate | by split].
Defined.

(** X18: the path given to [load_yaml] only goes into the message of the
    error: the data returned, and whether the call returns at all, are the
    same for any two paths. *)
Theorem load_yaml_uses_the_path_for_messages_only
    (yaml_load : loader) text path1 path2 :
  (∀ data, common.load_yaml yaml_load text path1 = Return data ↔
           common.load_yaml yaml_load text path2 = Return data) ∧
  (raises (common.load_yaml yaml_load text path1) ↔
   raises (common.load_yaml yaml_load text path2)).
Proof.
  unfold common.load_yaml.
  destruct (yaml_load text) as [loaded | exc | e]; simpl.
  - by destruct (is_dict (py_or loaded (PDict []))).
  - split; [by intros data; split | done].
  - destruct (isinstance e YAMLError); (split; [by intros data; split | done]).
Qed.

(** ** Writing twice *)

(** X10: after a [write_text] that returned, a second [write_text] to the
    same path leaves the disk as if it alone had run, and writing the same
    text again changes nothing. *)
Theorem write_text_last_write_wins first second path fs written fs1 :
  common.write_text first path fs = Return (written, fs1) →
  written = path ∧
  common.write_text second path fs1 = common.write_text second path fs ∧
  common.write_text first path fs1 = Return (path, fs1).
Proof.
  unfold common.write_text, open_write.
  destruct (fs !! path) as [[old readable | locked] |] eqn:Hp; simpl;
    [| discriminate |]; intros [= <- <-]; rewrite !lookup_insert_eq; simpl;
    by rewrite !insert_insert_eq.
Qed.

Lemma write_text_last_write_wins_witness :
  ∃ fs1, common.write_text "var2: 0" real_path ∅ = Return (real_path, fs1) ∧
         common.write_text "var2: 42" real_path fs1
           = common.write_text "var2: 42" real_path ∅ ∧
         common.write_text "var2: 0" real_path fs1 = Return (real_path, fs1).
Proof.
  eexists. split; [reflexivity |].
  apply (write_text_last_write_wins "var2: 0" "var2: 42" real_path ∅ real_path).
  reflexivity.
Defined.

(** X11: on a path that names a directory, [write_text] and [read_text]
    fail with [IsADirectoryError], while [touch] returns without a change,
    and so without having made a file. *)
Theorem write_text_refuses_a_directory text path fs :
  isdir fs path = true →
  common.write_text text path fs = Raise (mk_exn IsADirectoryError path) ∧
  common.read_text fs path = Raise (mk_exn IsADirectoryError path) ∧
  common.touch path fs = Return fs.
Proof.
  unfold common.write_text, common.touch, open_write, isdir, path_exists.
  rewrite read_text_open_read. unfold open_read.
  by destruct (fs !! path) as [[old readable | locked] |].
Qed.

(** ** Creating and deleting *)

Lemma write_text_refuses_a_directory_witness :
  isdir sample_tree "real" = true ∧
  common.write_text "var2: 0" "real" sample_tree
    = Raise (mk_exn IsADirectoryError "real") ∧
  common.read_text sample_tree "real" = Raise (mk_exn IsADirectoryError "real") ∧
  common.touch "real" sample_tree = Return sample_tree.
Proof.
  split; [reflexivity |].
  apply (write_text_refuses_a_directory "var2: 0" "real" sample_tree).
  reflexivity.
Defined.

(** X12: when [touch] returned on a path that was free, the path holds an
    empty file that reads as the empty text, and [delete] then gives back
    the very disk there was before. *)
Theorem touch_then_delete_restores_the_disk path fs fs1 :
  path_exists fs path = false →
  common.touch path fs = Return fs1 →
  isfile fs1 path = true ∧
  common.read_text fs1 path = Return "" ∧
  common.delete path fs1 = Return fs.
Proof.
  intros Hnew Hrun%touch_returned. rewrite Hnew in Hrun. subst fs1.
  unfold isfile. rewrite lookup_insert_eq. split; [reflexivity |].
  split; [apply read_text_empty_file; by rewrite lookup_insert_eq |].
  unfold common.delete, isdir, isfile, os_remove. rewrite lookup_insert_eq.
  f_equal. apply delete_insert_id.
  unfold path_exists in Hnew. by destruct (fs !! path).
Qed.

Lemma touch_then_delete_restores_the_disk_witness :
  ∃ fs1, path_exists fixture_disk real_path = false ∧
         common.touch real_path fixture_disk = Return fs1 ∧
         isfile fs1 real_path = true ∧
         common.read_text fs1 real_path = Return "" ∧
         common.delete real_path fs1 = Return fixture_disk.
Proof.
  eexists. split; [reflexivity |]. split; [vm_compute; reflexivity |].
  eapply (touch_then_delete_restores_the_disk real_path fixture_disk);
    vm_compute; reflexivity.
Defined.



Lemma lookup_filter_outside path (fs : filesystem) other :
  other ≠ path → below path other = false →
  filter (outside path) fs !! other = fs !! other.
Proof.
  intros Hne Hout. destruct (fs !! other) as [n |] eqn:Hlook.
  - apply map_lookup_filter_Some. split; [done |]. unfold outside. simpl.
    rewrite Hout, orb_false_r. by apply String.eqb_neq.
  - apply map_lookup_filter_None. by left.
Qed.

Lemma lookup_filter_below path (fs : filesystem) other :
  below path other = true → filter (outside path) fs !! other = None.
Proof.
  intros Hin. apply map_lookup_filter_None.
  destruct (fs !! other) as [n |]; [right | by left].
  intros x _. unfold outside. simpl. rewrite Hin, orb_true_r. discriminate.
Qed.

(** X14: [delete] changes no path but the one it is given and those
    below it; on a regular file it changes that path alone, and on a
    directory that can be removed everything below is gone. *)
Theorem delete_leaves_the_rest_of_the_disk path fs fs' :
  common.delete path fs = Return fs' →
  (∀ other, other ≠ path → below path other = false →
     fs' !! other = fs !! other) ∧
  (isdir fs path = false →
     ∀ other, other ≠ path → fs' !! other = fs !! other) ∧
  (fs !! path = Some (Dir false) →
     ∀ other, below path other = true → fs' !! other = None).
Proof.
  unfold common.delete, rmtree, isdir, isfile, os_remove.
  destruct (fs !! path) as [[text readable | []] |] eqn:Hp; simpl;
    intros [= <-]; (split; [| split]); try done.
  - intros other Hne _. by rewrite lookup_delete_ne.
  - intros _ other Hne. by rewrite lookup_delete_ne.
  - intros other Hne Hout. by apply lookup_filter_outside.
  - intros _ other Hin. by apply lookup_filter_below.
Qed.

Lemma delete_leaves_the_rest_of_the_disk_witness :
  common.delete "real" sample_tree = Return {[ "fake" := Dir false ]} ∧
  (∀ other, other ≠ "real" → below "real" other = false →
     ({[ "fake" := Dir false ]} : filesystem) !! other = sample_tree !! other) ∧
  (isdir sample_tree "real" = false →
     ∀ other, other ≠ "real" →
       ({[ "fake" := Dir false ]} : filesystem) !! other = sample_tree !! other) ∧
  (sample_tree !! "real" = Some (Dir false) →
     ∀ other, below "real" other = true →
       ({[ "fake" := Dir false ]} : filesystem) !! other = None).
Proof.
  assert (Hrun : common.delete "real" sample_tree
                 = Return {[ "fake" := Dir false ]})
    by (vm_compute; reflexivity).
  split; [exact Hrun |].
  exact (delete_leaves_the_rest_of_the_disk "real" sample_tree
           {[ "fake" := Dir false ]} Hrun).
Defined.

(** ** [create_dirname] *)

Lemma from_last_slash_none (reversed : list ascii) :
  Forall (λ c, is_slash c = false) reversed → from_last_slash reversed = [].
Proof.
  induction 1 as [| c rest Hc _ IH]; [reflexivity |].
  simpl. by rewrite Hc.
Qed.

(** A bare file name has no directory part. *)
Lemma dirname_bare_name path :
  Forall (λ c, is_slash c = false) (list_ascii_of_string path) →
  dirname path = "".
Proof.
  intros Hbare. unfold dirname.
  rewrite from_last_slash_none; [reflexivity |].
  by apply Forall_rev.
Qed.

Section CreateDirname.

Variable makedirs : filesystem → string → result exn filesystem.

Lemma create_dirname_skips path fs :
  dirname path = "" ∨ isdir fs (dirname path) = true →
  common.create_dirname makedirs path fs = Return fs.
Proof.
  unfold common.create_dirname. intros [-> | ->]; [reflexivity |].
  by rewrite andb_false_r.
Qed.

Lemma create_dirname_calls path fs :
  dirname path ≠ "" → isdir fs (dirname path) = false →
  common.create_dirname makedirs path fs = makedirs fs (dirname path).
Proof.
  unfold common.create_dirname. intros Hdir%String.eqb_neq ->.
  by rewrite Hdir.
Qed.

Lemma create_dirname_cases path fs :
  (dirname path = "" ∨ isdir fs (dirname path) = true) ∨
  (dirname path ≠ "" ∧ isdir fs (dirname path) = false).
Proof.
  destruct (String.eqb_spec (dirname path) ""); [by left; left |].
  destruct (isdir fs (dirname path)); [by left; right | by right].
Qed.

(** X15: [create_dirname] calls [makedirs] only for a path with a
    directory part that is not a directory yet. A bare file name, or a
    parent that is there, leaves the disk alone; what [makedirs] raises is
    passed on; and when [makedirs] has made the directory, the parent is a
    directory afterwards and a second call does nothing. *)
Theorem create_dirname_ensures_the_directory path fs :
  (Forall (λ c, is_slash c = false) (list_ascii_of_string path) →
     common.create_dirname makedirs path fs = Return fs) ∧
  (isdir fs (dirname path) = true →
     common.create_dirname makedirs path fs = Return fs) ∧
  (∀ e, common.create_dirname makedirs path fs = Raise e →
     makedirs fs (dirname path) = Raise e) ∧
  (∀ fs', common.create_dirname makedirs path fs = Return fs' →
     (makedirs fs (dirname path) = Return fs' →
      isdir fs' (dirname path) = true) →
     (dirname path = "" ∨ isdir fs' (dirname path) = true) ∧
     common.create_dirname makedirs path fs' = Return fs').
Proof.
  split; [| split; [| split]].
  - intros Hbare. apply create_dirname_skips. left.
    by apply dirname_bare_name.
  - intros Hdir. apply create_dirname_skips. by right.
  - intros e. destruct (create_dirname_cases path fs) as [Hskip | [Hne Hno]].
    + by rewrite (create_dirname_skips _ _ Hskip).
    + by rewrite (create_dirname_calls _ _ Hne Hno).
  - intros fs'. destruct (create_dirname_cases path fs) as [Hskip | [Hne Hno]].
    + rewrite (create_dirname_skips _ _ Hskip). intros [= <-] _.
      split; [exact Hskip | by apply create_dirname_skips].
    + rewrite (create_dirname_calls _ _ Hne Hno). intros Hmade Hcontract.
      pose proof (Hcontract Hmade) as Hdir.
      split; [by right | apply create_dirname_skips; by right].
Qed.

End CreateDirname.

Lemma create_dirname_ensures_the_directory_witness :
  ∃ fs', common.create_dirname makedirs real_path ∅ = Return fs' ∧
         isdir fs' "real/path/to" = true ∧
         common.create_dirname makedirs real_path fs' = Return fs' ∧
         common.create_dirname makedirs "file" ∅ = Return ∅.
Proof.
  destruct (create_dirname_ensures_the_directory makedirs real_path ∅)
    as (_ & _ & _ & Hmade).
  destruct (create_dirname_ensures_the_directory makedirs "file" ∅)
    as (Hbare & _).
  eexists. split; [vm_compute; reflexivity |].
  split; [vm_compute; reflexivity |].
  split.
  - eapply Hmade; [vm_compute; reflexivity |]. intros _. vm_compute. reflexivity.
  - apply Hbare. vm_compute. repeat constructor.
Defined.

End common_spec.

(** * Properties of [bases/converter.py] *)

Module converter_spec.

Import converter.

Section Containers.

Context {payload : Type}.
Implicit Types (cls : container_class payload) (h : gmap nat (instance payload)).

(** [cls.__new__(cls)] allocates: the reference is new, it holds a blank
    instance of the class, and every other instance is left alone. *)
Lemma Container_create_default_fresh name (blank : payload) h :
  ∃ value,
    Container_create_default name blank h
      = (Return value, <[value := mk_instance name blank]> h) ∧
    h !! value = None.
Proof.
  exists (fresh (dom h)). split; [reflexivity |].
  apply not_elem_of_dom, is_fresh.
Qed.

Lemma Container_create_default_frame name (blank : payload) h value h' other :
  Container_create_default name blank h = (Return value, h') →
  other ≠ value → h' !! other = h !! other.
Proof.
  unfold Container_create_default. intros [= <- <-] Hne.
  by rewrite lookup_insert_ne.
Qed.

(** [to_value] step by step. *)
Lemma to_value_unfold cls data h :
  to_value cls data h =
    match create_default cls h with
    | (Return value, h1) =>
        match update_value cls value data true h1 with
        | (Return _, h2) => (Return value, h2)
        | (Raise e, h2) => (Raise e, h2)
        end
    | (Raise e, h1) => (Raise e, h1)
    end.
Proof.
  unfold to_value, call_bind, call_ret.
  destruct (create_default cls h) as [[value | e] h1]; [| reflexivity].
  by destruct (update_value cls value data true h1) as [[[] | e] h2].
Qed.

(** C7: for every container class and data node, [to_value] returns a value
    exactly when [create_default] returns an instance and [update_value],
    called on that instance with the data and [auto_attr=True], returns;
    the value is that same instance and the store is the one
    [update_value] leaves. If either call raises, [to_value] raises the
    same exception. [format_data] is [to_data] applied to the container
    itself. *)
Theorem to_value_creates_default_then_updates cls data h :
  (∀ value h', to_value cls data h = (Return value, h') ↔
     ∃ h1, create_default cls h = (Return value, h1) ∧
           update_value cls value data true h1 = (Return (), h')) ∧
  (∀ e h', to_value cls data h = (Raise e, h') ↔
     create_default cls h = (Raise e, h') ∨
     ∃ value h1, create_default cls h = (Return value, h1) ∧
                 update_value cls value data true h1 = (Raise e, h')) ∧
  (∀ self, format_data cls self h = to_data cls self h).
Proof.
  rewrite to_value_unfold. split; [| split].
  - intros value h'.
    destruct (create_default cls h) as [[made | e] h1].
    + destruct (update_value cls made data true h1) as [[[] | e] h2] eqn:Hup.
      * split.
        -- intros [= <- <-]. eauto.
        -- intros (h1' & [= <- <-] & Hup'). rewrite Hup in Hup'.
           by injection Hup' as <-.
      * split; [discriminate |].
        intros (h1' & [= <- <-] & Hup'). rewrite Hup in Hup'. discriminate.
    + split; [discriminate | intros (? & [=] & _)].
  - intros e h'.
    destruct (create_default cls h) as [[made | e0] h1].
    + destruct (update_value cls made data true h1) as [[[] | e1] h2] eqn:Hup.
      * split; [discriminate |].
        intros [[=] | (value & h1' & [= <- <-] & Hup')].
        rewrite Hup in Hup'. discriminate.
      * split.
        -- intros [= <- <-]. right. eauto.
        -- intros [[=] | (value & h1' & [= <- <-] & Hup')].
           rewrite Hup in Hup'. by injection Hup' as <- <-.
    + split.
      * intros [= <- <-]. by left.
      * intros [[= <- <-] | (value & h1' & [=] & _)]. reflexivity.
  - intros self. reflexivity.
Qed.

(** X6: with the inherited [create_default], the instance that [to_value]
    returns did not exist before the call. *)
Theorem to_value_returns_new_instance cls data h value h' :
  inherits_create_default cls →
  to_value cls data h = (Return value, h') →
  h !! value = None.
Proof.
  intros Hinh. rewrite to_value_unfold, Hinh.
  destruct (Container_create_default_fresh (cls_name cls) (cls_blank cls) h)
    as (made & -> & Hnew).
  destruct (update_value cls made data true _) as [[[] | e] h2];
    [| discriminate].
  by intros [= <- <-].
Qed.

End Containers.

Lemma to_value_creates_default_then_updates_witness :
  ∃ h1, create_default samples.Box ∅ = (Return 0, h1) ∧
        update_value samples.Box 0 (PList [PInt 1]) true h1
          = (Return (), {[ 0 := mk_instance "Box" (PList [PInt 1]) ]}).
Proof.
  destruct (to_value_creates_default_then_updates samples.Box (PList [PInt 1]) ∅)
    as (Hreturns & _).
  apply Hreturns. vm_compute. reflexivity.
Defined.

Lemma to_value_returns_new_instance_witness :
  ∃ value h', to_value samples.Box (PList [PInt 1]) ∅ = (Return value, h') ∧
              (∅ : gmap nat (instance pyval)) !! value = None.
Proof.
  eexists _, _. split; [vm_compute; reflexivity |].
  apply (to_value_returns_new_instance samples.Box (PList [PInt 1]) ∅ _
           {[ 0 := mk_instance "Box" (PList [PInt 1]) ]} eq_refl).
  vm_compute. reflexivity.
Defined.

(** [to_value] and [format_data] on the sample class: the data node goes
    in and comes out again. *)
Example Box_round_trip :
  ∃ value h',
    to_value samples.Box (PList [PInt 1]) ∅ = (Return value, h') ∧
    format_data samples.Box value h' = (Return (PList [PInt 1]), h').
Proof. eexists _, _. split; vm_compute; reflexivity. Qed.

Section Allocation.

Context {payload : Type}.
Implicit Types (cls : container_class payload) (h : gmap nat (instance payload)).

Lemma to_value_allocates cls data h value h' :
  inherits_create_default cls → keeps_instances cls →
  to_value cls data h = (Return value, h') →
  h !! value = None ∧ is_Some (h' !! value) ∧
  ∀ r, is_Some (h !! r) → is_Some (h' !! r).
Proof.
  intros Hinh Hkeeps. rewrite to_value_unfold, Hinh.
  destruct (Container_create_default_fresh (cls_name cls) (cls_blank cls) h)
    as (made & -> & Hnew).
  destruct (update_value cls made data true _) as [[[] | e] h2] eqn:Hup;
    [| discriminate].
  intros [= <- <-]. split; [exact Hnew |]. split.
  - apply (Hkeeps _ _ _ _ Hup). by rewrite lookup_insert_eq.
  - intros r Hr. apply (Hkeeps _ _ _ _ Hup).
    destruct (decide (r = made)) as [-> | Hne];
      [by rewrite lookup_insert_eq | by rewrite lookup_insert_ne].
Qed.

(** X17: with the inherited [create_default] and an [update_value] that
    removes no instance, two calls of [to_value] return two different
    instances, both new and both in the store afterwards: no default
    instance is shared between values. *)
Theorem to_value_never_returns_an_instance_twice
    cls data1 data2 h value1 h1 value2 h2 :
  inherits_create_default cls → keeps_instances cls →
  to_value cls data1 h = (Return value1, h1) →
  to_value cls data2 h1 = (Return value2, h2) →
  value1 ≠ value2 ∧
  h !! value1 = None ∧ h !! value2 = None ∧
  is_Some (h2 !! value1) ∧ is_Some (h2 !! value2).
Proof.
  intros Hinh Hkeeps Hfirst Hsecond.
  destruct (to_value_allocates _ _ _ _ _ Hinh Hkeeps Hfirst)
    as (Hnew1 & Hin1 & Hgrow1).
  destruct (to_value_allocates _ _ _ _ _ Hinh Hkeeps Hsecond)
    as (Hnew2 & Hin2 & Hgrow2).
  split; [| split; [| split; [| split]]]; try done.
  - intros ->. rewrite Hnew2 in Hin1. by destruct Hin1.
  - destruct (h !! value2) eqn:Hold; [| done].
    assert (is_Some (h1 !! value2)) as [x Hx] by (apply Hgrow1; eauto).
    congruence.
  - by apply Hgrow2.
Qed.

End Allocation.

Lemma Box_keeps_instances : keeps_instances samples.Box.
Proof.
  intros value data h h'. simpl. unfold samples.Box_update_value.
  destruct (h !! value) as [inst |] eqn:Hv; [| discriminate].
  intros [= <-] r Hr. destruct (decide (r = value)) as [-> | Hne];
    [by rewrite lookup_insert_eq | by rewrite lookup_insert_ne].
Qed.

Lemma to_value_never_returns_an_instance_twice_witness :
  ∃ value1 h1 value2 h2,
    to_value samples.Box (PInt 1) ∅ = (Return value1, h1) ∧
    to_value samples.Box (PInt 2) h1 = (Return value2, h2) ∧
    value1 ≠ value2 ∧
    (∅ : gmap nat (instance pyval)) !! value1 = None ∧
    (∅ : gmap nat (instance pyval)) !! value2 = None ∧
    is_Some (h2 !! value1) ∧ is_Some (h2 !! value2).
Proof.
  exists 0, {[ 0 := mk_instance "Box" (PInt 1) ]}, 1,
    {[ 0 := mk_instance "Box" (PInt 1); 1 := mk_instance "Box" (PInt 2) ]}.
  assert (Hfirst : to_value samples.Box (PInt 1) ∅
                   = (Return 0, {[ 0 := mk_instance "Box" (PInt 1) ]}))
    by (vm_compute; reflexivity).
  assert (Hsecond : to_value samples.Box (PInt 2)
                      {[ 0 := mk_instance "Box" (PInt 1) ]}
                    = (Return 1, {[ 0 := mk_instance "Box" (PInt 1);
                                    1 := mk_instance "Box" (PInt 2) ]}))
    by (vm_compute; reflexivity).
  split; [exact Hfirst |]. split; [exact Hsecond |].
  exact (to_value_never_returns_an_instance_twice samples.Box (PInt 1) (PInt 2)
           ∅ 0 _ 1 _ eq_refl Box_keeps_instances Hfirst Hsecond).
Defined.

End converter_spec.

(** * Properties of the synchronisation engine *)

Module mapper_spec.

Import mapper samples.


(** What a [create] that returned leaves. *)
Lemma create_returned s s' :
  create s = Return s' →
  modified (this s') = true ∧ deleted (this s') = false ∧
  file_exists s' = true ∧
  fake s' = fake s ∧ obj s' = obj s ∧
  path (this s') = path (this s) ∧ attrs (this s') = attrs (this s) ∧
  strict (this s') = strict (this s).
Proof.
  unfold create. destruct (file_exists s) eqn:Hex; simpl.
  - intros [= <-]. by repeat split.
  - destruct (fake s) eqn:Hfake; simpl.
    + intros [= <-]. unfold file_exists. simpl. rewrite Hfake.
      by repeat split.
    + destruct (common.touch (path (this s)) (disk s)) as [fs' | e] eqn:Htouch;
        simpl; [| discriminate].
      intros [= <-]. unfold file_exists. simpl. rewrite Hfake.
      rewrite (common_spec.common_touch_exists _ _ _ Htouch).
      by repeat split.
Qed.

(** Without a disk, or on a file that is there, [create] cannot fail. *)
Lemma create_returns s :
  fake s = true ∨ file_exists s = true → ∃ s', create s = Return s'.
Proof.
  unfold create. destruct (file_exists s); simpl; [eauto |].
  intros [-> | [=]]. simpl. eauto.
Qed.

(** On a file that is there, [create] only sets the two flags. *)
Lemma create_existing s :
  file_exists s = true →
  create s = Return (with_mapper s (set_flags (this s) true false)).
Proof. unfold create. by intros ->. Qed.

Lemma set_flags_same s :
  modified (this s) = true → deleted (this s) = false →
  with_mapper s (set_flags (this s) true false) = s.
Proof. destruct s as [f d [p a st m dl c] o]. simpl. by intros -> ->. Qed.

Lemma create_twice s s' : create s = Return s' → create s' = Return s'.
Proof.
  intros (Hmod & Hdel & Hex & _)%create_returned.
  rewrite (create_existing _ Hex). by rewrite set_flags_same.
Qed.

(** What a [delete] that returned leaves. *)
Lemma delete_returned s s' :
  delete s = Return s' →
  modified (this s') = true ∧ deleted (this s') = true ∧
  fake s' = fake s ∧ obj s' = obj s ∧
  path (this s') = path (this s) ∧ attrs (this s') = attrs (this s) ∧
  strict (this s') = strict (this s).
Proof.
  unfold delete. destruct (fake s) eqn:Hfake; simpl.
  - intros [= <-]. by repeat split.
  - destruct (common.delete (path (this s)) (disk s)) as [fs' | e];
      simpl; [| discriminate].
    intros [= <-]. by repeat split.
Qed.

(** Without a disk, or on a file that is not there, [delete] cannot fail. *)
Lemma delete_returns s :
  fake s = true ∨ file_exists s = false → ∃ s', delete s = Return s'.
Proof.
  unfold delete, file_exists. destruct (fake s); simpl; [eauto |].
  intros [[=] | Hmissing].
  rewrite common_spec.common_delete_missing; simpl; [eauto |].
  unfold path_exists in Hmissing. by destruct (disk s !! path (this s)).
Qed.

Lemma delete_removes s s' :
  delete s = Return s' →
  fake s = true ∨ disk s !! path (this s) ≠ Some (Dir true) →
  file_exists s' = false.
Proof.
  unfold delete. destruct (fake s) eqn:Hfake; simpl.
  - intros [= <-] _. unfold file_exists. simpl. by rewrite Hfake.
  - destruct (common.delete (path (this s)) (disk s)) as [fs' | e] eqn:Hrm;
      simpl; [| discriminate].
    intros [= <-] [[=] | Hdir]. unfold file_exists. simpl. rewrite Hfake.
    by apply (common_spec.common_delete_removes _ _ _ Hrm).
Qed.

Lemma delete_twice s s' :
  delete s = Return s' →
  fake s = true ∨ disk s !! path (this s) ≠ Some (Dir true) →
  delete s' = Return s'.
Proof.
  unfold delete at 1. destruct (fake s) eqn:Hfake; simpl.
  - intros [= <-] _. unfold delete. simpl. by rewrite Hfake.
  - destruct (common.delete (path (this s)) (disk s)) as [fs' | e] eqn:Hrm;
      simpl; [| discriminate].
    intros [= <-] [[=] | Hdir]. unfold delete. simpl. rewrite Hfake.
    by rewrite (common_spec.common_delete_twice _ _ _ Hrm Hdir).
Qed.

(** After [create] has made the file, the raw read gives the empty text. *)
Lemma read_created s s' :
  create s = Return s' → file_exists s = false → read s' = Return "".
Proof.
  unfold create. intros Hcreate Hex. rewrite Hex in Hcreate.
  destruct (fake s) eqn:Hfake; simpl in Hcreate.
  - injection Hcreate as <-. unfold read. simpl. by rewrite Hfake.
  - unfold file_exists in Hex. rewrite Hfake in Hex.
    destruct (common.touch (path (this s)) (disk s)) as [fs' | e] eqn:Htouch;
      simpl in Hcreate; [| discriminate].
    injection Hcreate as <-. unfold read. simpl. rewrite Hfake.
    apply common_spec.touch_returned in Htouch. rewrite Hex in Htouch.
    subst fs'. rewrite common_spec.read_text_empty_file; [done |].
    by rewrite lookup_insert_eq.
Qed.

Lemma declares_cons name key conv (rest : schema) :
  declares ((key, conv) :: rest) name = String.eqb name key || declares rest name.
Proof. reflexivity. Qed.

(** Over a tree without keys, the first loop of [fetch] cannot fail: every
    declared attribute ends with the default of a converter declared for
    it, and no other attribute changes. *)
Lemma assign_declared_no_keys (declared : schema) (o : attributes) :
  ∃ o', assign_declared declared [] o = Return o' ∧
        (∀ name, declares declared name = false → o' !! name = o !! name) ∧
        (∀ name, declares declared name = true →
           ∃ conv, (name, conv) ∈ declared ∧
                   o' !! name = Some (create_default conv)).
Proof.
  revert o. induction declared as [| [key conv] rest IH]; intros o.
  - exists o. split; [reflexivity |]. split; [done | discriminate].
  - destruct (IH (setattr o key (create_default conv))) as (o' & Hrun & Hout & Hin).
    exists o'. split; [exact Hrun |]. split.
    + intros name. rewrite declares_cons.
      intros [Hne Hrest]%orb_false_iff. rewrite (Hout _ Hrest).
      unfold setattr. apply lookup_insert_ne. intros ->.
      by rewrite String.eqb_refl in Hne.
    + intros name. rewrite declares_cons.
      destruct (declares rest name) eqn:Hrest.
      * intros _. destruct (Hin _ Hrest) as (c & Hc & Hval).
        exists c. split; [by apply list_elem_of_further | done].
      * rewrite orb_false_r. intros ->%String.eqb_eq.
        exists conv. split; [by apply list_elem_of_here |].
        rewrite (Hout _ Hrest). unfold setattr. by rewrite lookup_insert_eq.
Qed.

Section Engine.

Variable yaml_load : loader.
Variable infer : pyval → result exn Converter.

Lemma fetch_deleted s :
  deleted (this s) = true → fetch yaml_load infer s = Raise FileDeletedError.
Proof. unfold fetch. by intros ->. Qed.

Lemma fetch_clears_modified s s' :
  fetch yaml_load infer s = Return s' → modified (this s') = false.
Proof.
  unfold fetch. destruct (deleted (this s)); [discriminate |].
  destruct (if file_exists s then _ else _) as [ready | e]; [| discriminate].
  simpl. destruct (read ready) as [text | e]; [| discriminate]. simpl.
  destruct (propagate (common.load_yaml _ _ _)) as [data | e]; [| discriminate].
  simpl. destruct (propagate (assign_declared _ _ _)) as [assigned | e];
    [| discriminate].
  simpl. destruct (if strict (this ready) then _ else _) as [synced | e];
    [| discriminate].
  simpl. by intros [= <-].
Qed.

(** A fetch of an existing, empty file succeeds when the parser reads the
    empty text as null: the schema is kept, every declared attribute gets a
    default, and nothing else on the object changes. *)
Lemma fetch_empty_file s :
  yaml_load "" = YamlValue PNone →
  deleted (this s) = false → file_exists s = true → read s = Return "" →
  ∃ s', fetch yaml_load infer s = Return s' ∧
        modified (this s') = false ∧ deleted (this s') = false ∧
        attrs (this s') = attrs (this s) ∧
        (∀ name, declares (attrs (this s)) name = false →
           obj s' !! name = obj s !! name) ∧
        (∀ name, declares (attrs (this s)) name = true →
           ∃ conv, (name, conv) ∈ attrs (this s) ∧
                   obj s' !! name = Some (create_default conv)).
Proof.
  intros Hnull Hdel Hex Hread. unfold fetch. rewrite Hdel, Hex. simpl.
  rewrite Hread. simpl.
  rewrite (common_spec.load_yaml_falsy _ _ _ PNone Hnull eq_refl). simpl.
  destruct (assign_declared_no_keys (attrs (this s)) (obj s))
    as (o' & -> & Hout & Hin).
  simpl. destruct (strict (this s)); simpl;
    (eexists; split; [reflexivity |]); simpl; by repeat split.
Qed.

End Engine.

(** ** The flags *)

Section Lifecycle.

Variable yaml_load : loader.
Variable infer : pyval → result exn Converter.

(** C2: a mapper is modified right after construction; it is modified
    after every [create] and every [delete] that returned, and in fake
    mode, where no disk is asked, both always return; a fetch that succeeds
    leaves it unmodified; and on a new mapper whose file does not exist
    yet, once [create] has returned, [fetch] succeeds and clears the flag
    that [create] set, provided the parser reads the empty file as null. *)
Theorem modified_flag_lifecycle is_fake fs o file declared is_strict :
  let s0 := bind_object is_fake fs o file declared is_strict in
  modified (this s0) = true ∧
  (∀ s s1, create s = Return s1 → modified (this s1) = true) ∧
  (∀ s s1, delete s = Return s1 → modified (this s1) = true) ∧
  (∀ s, fake s = true →
     (∃ s1, create s = Return s1) ∧ (∃ s1, delete s = Return s1)) ∧
  (∀ s s', fetch yaml_load infer s = Return s' → modified (this s') = false) ∧
  (yaml_load "" = YamlValue PNone →
   is_fake = true ∨ path_exists fs file = false →
   ∀ s1, create s0 = Return s1 →
     modified (this s1) = true ∧
     ∃ s2, fetch yaml_load infer s1 = Return s2 ∧
           modified (this s2) = false).
Proof.
  intros s0. split; [reflexivity |].
  split; [| split; [| split; [| split]]].
  - intros s s1 Hrun. by destruct (create_returned s s1 Hrun) as (Hm & _).
  - intros s s1 Hrun. by destruct (delete_returned s s1 Hrun) as (Hm & _).
  - intros s Hfake. split; [apply create_returns | apply delete_returns];
      by left.
  - apply fetch_clears_modified.
  - intros Hnull Hnew s1 H1.
    assert (Hmissing : file_exists s0 = false).
    { unfold file_exists, s0. simpl.
      destruct is_fake; [reflexivity | by destruct Hnew as [? | ->]]. }
    destruct (create_returned s0 s1 H1) as (Hm1 & Hd1 & Hex1 & _).
    split; [exact Hm1 |].
    destruct (fetch_empty_file yaml_load infer s1 Hnull Hd1 Hex1)
      as (s2 & H2 & Hm2 & _); [by apply (read_created s0) | eauto].
Qed.

(** On the model of the mapper, [fetch] fails with [FileDeletedError]
    whenever the mapper is marked deleted, and so after every [delete] that
    returned; a [create] that returns then clears the flag, and the next
    [fetch] succeeds, provided the parser reads the empty file as null and
    the path is not a directory that could not be removed. In fake mode
    [delete] and [create] always return. *)
Theorem fetch_after_delete_needs_create s :
  (∀ s', deleted (this s') = true →
     fetch yaml_load infer s' = Raise FileDeletedError) ∧
  (∀ s1, delete s = Return s1 →
     deleted (this s1) = true ∧
     fetch yaml_load infer s1 = Raise FileDeletedError ∧
     ∀ s2, create s1 = Return s2 →
       deleted (this s2) = false ∧
       (yaml_load "" = YamlValue PNone →
        fake s = true ∨ disk s !! path (this s) ≠ Some (Dir true) →
        ∃ s3, fetch yaml_load infer s2 = Return s3 ∧
              deleted (this s3) = false)) ∧
  (fake s = true →
     ∃ s1 s2, delete s = Return s1 ∧ create s1 = Return s2).
Proof.
  split; [by apply fetch_deleted |]. split.
  - intros s1 H1. destruct (delete_returned s s1 H1) as (_ & Hd1 & _).
    split; [exact Hd1 |]. split; [by apply fetch_deleted |].
    intros s2 H2. destruct (create_returned s1 s2 H2) as (_ & Hd2 & Hex2 & _).
    split; [exact Hd2 |]. intros Hnull Hfile.
    pose proof (delete_removes s s1 H1 Hfile) as Hgone.
    destruct (fetch_empty_file yaml_load infer s2 Hnull Hd2 Hex2)
      as (s3 & H3 & _ & Hd3 & _); [by apply (read_created s1) | eauto].
  - intros Hfake. destruct (delete_returns s) as [s1 H1]; [by left |].
    destruct (delete_returned s s1 H1) as (_ & _ & Hfake1 & _).
    destruct (create_returns s1) as [s2 H2]; [left; congruence | eauto].
Qed.

(** C10: a text that parses to YAML null gives the empty mapping and no
    [ContentError]. So, when the parser reads the empty text as null: the
    file that a [touch] has made on a free path reads back as the empty
    text and loads as the empty mapping; and once [create] has made the
    file of a mapper, [fetch] succeeds, every attribute of the schema holds
    the default of a converter declared for it, and no other attribute of
    the object has changed. *)
Theorem load_yaml_null_gives_empty_mapping :
  (∀ text file, yaml_load text = YamlValue PNone →
     common.load_yaml yaml_load text file = Return (PDict [])) ∧
  (yaml_load "" = YamlValue PNone →
   (∀ fs file fs', path_exists fs file = false →
      common.touch file fs = Return fs' →
      common.read_text fs' file = Return "" ∧
      common.load_yaml yaml_load "" file = Return (PDict [])) ∧
   (∀ s s1, file_exists s = false → create s = Return s1 →
      ∃ s2, fetch yaml_load infer s1 = Return s2 ∧
            (∀ name, declares (attrs (this s)) name = true →
               ∃ conv, (name, conv) ∈ attrs (this s) ∧
                       obj s2 !! name = Some (create_default conv)) ∧
            (∀ name, declares (attrs (this s)) name = false →
               obj s2 !! name = obj s !! name))).
Proof.
  split; [| intros Hnull; split].
  - intros text file Hload.
    by apply (common_spec.load_yaml_falsy _ _ file PNone).
  - intros fs file fs' Hnew Hrun%common_spec.touch_returned.
    rewrite Hnew in Hrun. subst fs'. split.
    + apply common_spec.read_text_empty_file. by rewrite lookup_insert_eq.
    + by apply (common_spec.load_yaml_falsy _ _ file PNone).
  - intros s s1 Hmissing H1.
    destruct (create_returned s s1 H1)
      as (_ & Hd1 & Hex1 & _ & Hobj & _ & Hattrs & _).
    destruct (fetch_empty_file yaml_load infer s1 Hnull Hd1 Hex1)
      as (s2 & H2 & _ & _ & _ & Hout & Hin); [by apply (read_created s) |].
    exists s2. rewrite Hattrs, Hobj in *. auto.
Qed.

End Lifecycle.

Lemma modified_flag_lifecycle_witness :
  pyyaml "" = YamlValue PNone ∧
  (∃ s1 s2, create (fresh_mapper true) = Return s1 ∧
            modified (this s1) = true ∧
            fetch pyyaml infer s1 = Return s2 ∧
            modified (this s2) = false) ∧
  (∃ s1 s2, create (fresh_mapper false) = Return s1 ∧
            modified (this s1) = true ∧
            fetch pyyaml infer s1 = Return s2 ∧
            modified (this s2) = false).
Proof.
  split; [reflexivity |]. split.
  - destruct (modified_flag_lifecycle pyyaml infer true ∅ MyObject fake_path
                fixture_attrs true)
      as (_ & _ & _ & _ & _ & Hfresh).
    destruct (create_returns (fresh_mapper true)) as [s1 H1];
      [left; reflexivity |].
    destruct (Hfresh eq_refl (or_introl eq_refl) s1 H1)
      as (Hm1 & s2 & H2 & Hm2).
    exists s1, s2. auto.
  - destruct (modified_flag_lifecycle pyyaml infer false fixture_disk MyObject
                real_path fixture_attrs true)
      as (_ & _ & _ & _ & _ & Hfresh).
    assert (Hrun : ∃ s1, create (fresh_mapper false) = Return s1).
    { destruct (create (fresh_mapper false)) as [s1 | e] eqn:Hcreate;
        [by exists s1 | vm_compute in Hcreate; discriminate]. }
    destruct Hrun as [s1 H1].
    destruct (Hfresh eq_refl (or_intror eq_refl) s1 H1)
      as (Hm1 & s2 & H2 & Hm2).
    exists s1, s2. auto.
Defined.

Lemma fetch_after_delete_needs_create_witness :
  pyyaml "" = YamlValue PNone ∧
  ∃ s1 s2 s3, delete (fresh_mapper true) = Return s1 ∧
              fetch pyyaml infer s1 = Raise FileDeletedError ∧
              create s1 = Return s2 ∧
              fetch pyyaml infer s2 = Return s3.
Proof.
  split; [reflexivity |].
  destruct (fetch_after_delete_needs_create pyyaml infer (fresh_mapper true))
    as (_ & Hafter & Hfake).
  destruct Hfake as (s1 & s2 & H1 & H2); [reflexivity |].
  destruct (Hafter s1 H1) as (_ & Hf1 & Hcreate).
  destruct (Hcreate s2 H2) as (_ & Hagain).
  destruct Hagain as (s3 & H3 & _); [reflexivity | left; reflexivity |].
  exists s1, s2, s3. auto.
Defined.

Lemma load_yaml_null_gives_empty_mapping_witness :
  pyyaml "" = YamlValue PNone ∧
  (∃ fs', common.touch real_path fixture_disk = Return fs' ∧
          common.read_text fs' real_path = Return "" ∧
          common.load_yaml pyyaml "" real_path = Return (PDict [])) ∧
  (∃ s1 s2, create (fresh_mapper true) = Return s1 ∧
            fetch pyyaml infer s1 = Return s2 ∧
            obj s2 !! "var2" = Some (PInt 0) ∧
            obj s2 !! "var3" = Some (PInt 0) ∧
            obj s2 !! "var1" = Some (PInt 1)).
Proof.
  destruct (load_yaml_null_gives_empty_mapping pyyaml infer)
    as [_ Hempty].
  destruct Hempty as [Hfile Hfetch]; [reflexivity |].
  split; [reflexivity |]. split.
  - eexists. split; [vm_compute; reflexivity |].
    eapply (Hfile fixture_disk real_path); vm_compute; reflexivity.
  - destruct (create_returns (fresh_mapper true)) as [s1 H1];
      [left; reflexivity |].
    destruct (Hfetch (fresh_mapper true) s1 eq_refl H1)
      as (s2 & H2 & Hin & Hout).
    exists s1, s2. split; [exact H1 |]. split; [exact H2 |].
    destruct (Hin "var2" eq_refl) as (c2 & Hc2 & ->).
    destruct (Hin "var3" eq_refl) as (c3 & Hc3 & ->).
    rewrite (Hout "var1" eq_refl).
    assert (Hdefault : ∀ name c, (name, c) ∈ fixture_attrs →
                                 create_default c = PInt 0).
    { intros name c Hc. unfold fixture_attrs in Hc.
      apply elem_of_cons in Hc as [[= _ ->] | Hc]; [reflexivity |].
      apply elem_of_cons in Hc as [[= _ ->] | Hc]; [reflexivity |].
      by apply elem_of_nil in Hc. }
    rewrite (Hdefault _ _ Hc2), (Hdefault _ _ Hc3). by repeat split.
Defined.

(** C8: [create] and [delete] are idempotent. After a [create] that
    returned, a second [create] returns the very same state: the file is
    there and the mapper is not marked deleted. After a [delete] that
    returned, and unless [rmtree] failed on a directory, a second [delete]
    returns the very same state: the file is missing and the mapper is
    marked deleted. On a file that was never created [delete] returns, and
    the same holds. In fake mode both always return. On disk the two calls
    are [common.touch] and [common.delete], which ask the disk for nothing
    the second time. *)
Theorem create_and_delete_are_idempotent s :
  (∀ s1, create s = Return s1 →
     create s1 = Return s1 ∧
     file_exists s1 = true ∧ deleted (this s1) = false) ∧
  (∀ s1, delete s = Return s1 →
     fake s = true ∨ disk s !! path (this s) ≠ Some (Dir true) →
     delete s1 = Return s1 ∧
     file_exists s1 = false ∧ deleted (this s1) = true) ∧
  (file_exists s = false →
     ∃ s1, delete s = Return s1 ∧ delete s1 = Return s1 ∧
           file_exists s1 = false ∧ deleted (this s1) = true) ∧
  (fake s = true →
     (∃ s1, create s = Return s1) ∧ (∃ s1, delete s = Return s1)) ∧
  (∀ file fs fs1, common.touch file fs = Return fs1 →
     common.touch file fs1 = Return fs1) ∧
  (∀ file fs fs1, common.delete file fs = Return fs1 →
     fs !! file ≠ Some (Dir true) →
     common.delete file fs1 = Return fs1).
Proof.
  assert (Hdelete : ∀ s1, delete s = Return s1 →
            fake s = true ∨ disk s !! path (this s) ≠ Some (Dir true) →
            delete s1 = Return s1 ∧
            file_exists s1 = false ∧ deleted (this s1) = true).
  { intros s1 H1 Hfile. destruct (delete_returned s s1 H1) as (_ & Hd & _).
    split; [by apply (delete_twice s) |].
    split; [by apply (delete_removes s) | exact Hd]. }
  split; [| split; [exact Hdelete | split; [| split; [| split]]]].
  - intros s1 H1. destruct (create_returned s s1 H1) as (_ & Hd & Hex & _).
    split; [by apply (create_twice s) | by split].
  - intros Hmissing. destruct (delete_returns s) as [s1 H1]; [by right |].
    exists s1. split; [exact H1 |]. apply (Hdelete s1 H1).
    unfold file_exists, path_exists in Hmissing.
    destruct (fake s); [by left | right].
    by destruct (disk s !! path (this s)).
  - intros Hfake. split; [apply create_returns | apply delete_returns];
      by left.
  - apply common_spec.common_touch_twice.
  - apply common_spec.common_delete_twice.
Qed.

Lemma create_and_delete_are_idempotent_witness :
  file_exists (fresh_mapper false) = false ∧
  (∃ s1, delete (fresh_mapper false) = Return s1 ∧ delete s1 = Return s1 ∧
         file_exists s1 = false ∧ deleted (this s1) = true) ∧
  (∃ s1, create (fresh_mapper true) = Return s1 ∧ create s1 = Return s1 ∧
         file_exists s1 = true ∧ deleted (this s1) = false).
Proof.
  split; [reflexivity |]. split.
  - destruct (create_and_delete_are_idempotent (fresh_mapper false))
      as (_ & _ & Hnever & _).
    apply Hnever. reflexivity.
  - destruct (create_and_delete_are_idempotent (fresh_mapper true))
      as (Hcreate & _ & _ & Hfake & _).
    destruct Hfake as [[s1 H1] _]; [reflexivity |].
    exists s1. split; [exact H1 |]. by apply Hcreate.
Defined.

(** ** The scenarios of [test_mapper.py], run on the model *)

Section Scenarios.

Variable is_fake : bool.

(** [it_adds_missing_attributes]. *)
Example it_adds_missing_attributes :
  ∃ s1 s2, create (fresh_mapper is_fake) = Return s1 ∧
           fetch pyyaml infer s1 = Return s2 ∧
           getattr (obj s2) "var1" = Return (PInt 1) ∧
           getattr (obj s2) "var2" = Return (PInt 0) ∧
           getattr (obj s2) "var3" = Return (PInt 0).
Proof. destruct is_fake; eexists _, _; repeat split; vm_compute; reflexivity. Qed.

(** [can_set_the_file_contents]. *)
Example can_set_the_file_contents :
  ∃ s1 s2 s3, create (fresh_mapper is_fake) = Return s1 ∧
              set_text s1 ("var2: 42" +:+ nl) = Return s2 ∧
              fetch pyyaml infer s2 = Return s3 ∧
              getattr (obj s3) "var2" = Return (PInt 42) ∧
              getattr (obj s3) "var3" = Return (PInt 0).
Proof. destruct is_fake; eexists _, _, _; repeat split; vm_compute; reflexivity. Qed.

(** [it_ignores_new_attributes]. *)
Example it_ignores_new_attributes :
  ∃ s1 s2 s3, create (fresh_mapper_with is_fake true) = Return s1 ∧
              set_text s1 "var4: foo" = Return s2 ∧
              fetch pyyaml infer s2 = Return s3 ∧
              getattr (obj s3) "var4" = Raise (mk_exn AttributeError "var4").
Proof. destruct is_fake; eexists _, _, _; repeat split; vm_compute; reflexivity. Qed.

(** [it_infers_types_on_new_attributes_when_not_strict], up to the first
    fetch. *)
Example it_infers_types_on_new_attributes_when_not_strict :
  ∃ s1 s2 s3, create (fresh_mapper_with is_fake false) = Return s1 ∧
              set_text s1 "var4: foo" = Return s2 ∧
              fetch pyyaml infer s2 = Return s3 ∧
              getattr (obj s3) "var4" = Return (PStr "foo").
Proof. destruct is_fake; eexists _, _, _; repeat split; vm_compute; reflexivity. Qed.

(** [it_raises_an_exception_after_delete]. *)
Example it_raises_an_exception_after_delete :
  ∃ s1, delete (fresh_mapper is_fake) = Return s1 ∧
        fetch pyyaml infer s1 = Raise FileDeletedError.
Proof. destruct is_fake; eexists; split; vm_compute; reflexivity. Qed.

(** Text that does not parse, or that is not a mapping, makes the fetch
    fail with the [ContentError] of [load_yaml]. *)
Example fetch_invalid_contents :
  ∃ s1 s2 msg, create (fresh_mapper is_fake) = Return s1 ∧
               set_text s1 ("not a dictionary" +:+ nl) = Return s2 ∧
               fetch pyyaml infer s2
                 = Raise (Propagated (mk_exn ContentError msg)).
Proof. destruct is_fake; eexists _, _, _; repeat split; vm_compute; reflexivity. Qed.

End Scenarios.

End mapper_spec.
